(** * FuckBaggr: statement scrapers, reconciliation search and the P/E proxy

    A shallow embedding of the scripts [find_sum.py], [parse_cash.py],
    [parse_ibkr.py] and [scripts/yfinance_server.py], followed by the
    properties established about them. *)

From Stdlib Require Import Ascii String.
From Stdlib Require Import List ZArith NArith Lia Bool Floats Sorted.
Import ListNotations.

Set Implicit Arguments.
Set Warnings "-inexact-float,-register-all".

(* ================================================================== *)
(** * Part I. Definitions                                              *)
(* ================================================================== *)

(** ** The reconciliation search ([find_sum.py]) *)

Module FindSum.

(** A Python float is an IEEE-754 binary64 value, a [float] here.

    [sum(c)] on a tuple of floats, as the interpreters up to 3.11 compute
    it: the running total starts from the integer [0] (which adds as
    [0.0]) and the items are added from left to right.  The sum of the
    empty tuple is the integer [0], which subtracts and compares as
    [0.0]. *)
Definition sum_plain (c : list float) : float :=
  fold_left PrimFloat.add c 0%float.

(** [sum(c)] as the interpreters from 3.12 on compute it: the first item is
    added to the integer [0], the later ones are accumulated with
    Neumaier's compensation, which is added at the end when it is a
    non-zero finite number. *)
Definition neumaier_step (st : float * float) (x : float)
  : float * float :=
  let '(f_result, c) := st in
  let t := (f_result + x)%float in
  let c' :=
    if PrimFloat.leb (PrimFloat.abs x) (PrimFloat.abs f_result)
    then (c + ((f_result - t) + x))%float
    else (c + ((x - t) + f_result))%float in
  (t, c').

Definition is_finite (x : float) : bool :=
  PrimFloat.ltb (PrimFloat.abs x) infinity.

Definition sum_compensated (c : list float) : float :=
  match c with
  | [] => 0%float
  | x :: rest =>
      let '(f_result, comp) :=
        fold_left neumaier_step rest ((0 + x)%float, 0%float) in
      if negb (PrimFloat.eqb comp 0%float) && is_finite comp
      then (f_result + comp)%float
      else f_result
  end.

(** The literal [0.05] of line 21. *)
Definition tolerance : float := 0.05%float.

(** What the script prints. *)
Inductive line : Type :=
| Match (s : float) (c : list float)   (* MATCH: <sum> with <subset> *)
| SearchDone.                          (* Search done. *)

(** The only exception the loop can raise: [itertools.combinations]
    refuses a negative size ("r must be non-negative"). *)
Inductive exn : Type := ValueError.

(** [range(a, b)]. *)
Definition py_range (a b : Z) : list Z :=
  map (fun i => (a + Z.of_nat i)%Z) (seq 0 (Z.to_nat (b - a))).

(** What [itertools.combinations] yields for [r >= 0]: the selections of
    [r] items of [l] that start with its first item, then those that do not;
    nothing when fewer than [r] items are left.  Items are told apart by
    position, not by value. *)
Fixpoint combinations {A : Type} (r : nat) (l : list A) : list (list A) :=
  match r with
  | O => [[]]
  | S r' =>
      match l with
      | [] => []
      | x :: xs =>
          if List.length xs <? r' then []
          else map (cons x) (combinations r' xs) ++ combinations r xs
      end
  end.

Definition itertools_combinations {A : Type} (l : list A) (r : Z)
  : exn + list (list A) :=
  if (r <? 0)%Z then inl ValueError
  else inr (combinations (Z.to_nat r) l).

(** The state of a run: the lines printed so far, the combinations the
    inner loop has reached so far (a trace, not program data), and the
    exception that ended the run, if any. *)
Record run : Type := mkRun {
  stdout : list line;
  examined : list (list float);
  raised : option exn
}.

Section Search.
(** The built-in [sum] of the interpreter that runs the script. *)
Variable pysum : list float -> float.
Variable all_vals : list float.
Variable target : float.

(** Line 21: [abs(sum(c) - target) < 0.05]. *)
Definition within_tolerance (c : list float) : bool :=
  PrimFloat.ltb (PrimFloat.abs (pysum c - target)%float) tolerance.

(** Lines 20-22 for one size: the body of the inner loop. *)
Fixpoint inner_loop (cs : list (list float)) : list line :=
  match cs with
  | [] => []
  | c :: cs' =>
      if within_tolerance c
      then Match (pysum c) c :: inner_loop cs'
      else inner_loop cs'
  end.

(** Lines 19-24: the outer loop over the sizes, then the final print. *)
Fixpoint outer_loop (rs : list Z) : run :=
  match rs with
  | [] => mkRun [SearchDone] [] None
  | r :: rs' =>
      match itertools_combinations all_vals r with
      | inl e => mkRun [] [] (Some e)
      | inr cs =>
          let rest := outer_loop rs' in
          mkRun (inner_loop cs ++ stdout rest)
                (cs ++ examined rest)
                (raised rest)
      end
  end.

Definition find_sum : run :=
  let n := Z.of_nat (List.length all_vals) in
  outer_loop (py_range (n - 2) (n + 1)).
End Search.

(** The data of lines 3-17. *)
Definition deposits : list float :=
  [5.0; 30.0; 700.0; 499.98; 40.85; 489.93; 500.0; 500.0; 1000.0; 302.0;
   500.0; 83.0; 5.0; 10.0; 500.62; 2.0; 1503.34; 107.76; 21.37]%float.

Definition transfers : list float :=
  [372.48; 5941.50; 1479.20; 1125.62; 1027.88]%float.

Definition divs : list float := [5.44; 8.16]%float.

Definition all_vals : list float := deposits ++ transfers ++ divs.

Definition target : float := 16809.66%float.

End FindSum.

(** ** Python strings *)

Module Py.

(** A [str] is a sequence of Unicode code points. *)
Definition str : Type := list N.

(** An ASCII literal as a [str]. *)
Definition lit (s : string) : str := map N_of_ascii (list_ascii_of_string s).

Definition str_eqb (a b : str) : bool :=
  if list_eq_dec N.eq_dec a b then true else false.

(** [x in l] for a list of strings. *)
Definition mem (x : str) (l : list str) : bool := existsb (str_eqb x) l.

Fixpoint startswith (p s : str) : bool :=
  match p, s with
  | [], _ => true
  | _ :: _, [] => false
  | a :: p', b :: s' => N.eqb a b && startswith p' s'
  end.

(** [sub in s] for strings. *)
Fixpoint contains (sub s : str) : bool :=
  startswith sub s ||
  match s with
  | [] => false
  | _ :: s' => contains sub s'
  end.

(** [str.isspace] on one code point: the characters [str.strip()] removes. *)
Definition isspace (c : N) : bool :=
  ((9 <=? c) && (c <=? 13) || (28 <=? c) && (c <=? 32) ||
   (c =? 133) || (c =? 160) || (c =? 5760) ||
   (8192 <=? c) && (c <=? 8202) ||
   (c =? 8232) || (c =? 8233) || (c =? 8239) || (c =? 8287) ||
   (c =? 12288))%N.

Fixpoint lstrip (s : str) : str :=
  match s with
  | [] => []
  | c :: s' => if isspace c then lstrip s' else s
  end.

Definition rstrip (s : str) : str := rev (lstrip (rev s)).

Definition strip (s : str) : str := rstrip (lstrip s).

(** [s.split(sep)] for a one-character separator. *)
Fixpoint split (sep : N) (s : str) : list str :=
  match s with
  | [] => [[]]
  | c :: s' =>
      if N.eqb c sep then [] :: split sep s'
      else match split sep s' with
           | [] => [[c]]
           | piece :: pieces => (c :: piece) :: pieces
           end
  end.

(** [sep.join(pieces)] for a one-character separator. *)
Fixpoint join (sep : N) (pieces : list str) : str :=
  match pieces with
  | [] => []
  | [p] => p
  | p :: rest => p ++ sep :: join sep rest
  end.

(** [l[a:]] and [l[a:b]] for [0 <= a <= b]. *)
Definition slice_from {A : Type} (a : nat) (l : list A) : list A := skipn a l.

Definition slice {A : Type} (a b : nat) (l : list A) : list A :=
  firstn (b - a) (skipn a l).

End Py.

(** ** The parsed document (the part of BeautifulSoup the scripts use) *)

Module Soup.
Import Py.

(** A node of the parse tree.  [NavigableString] is text that [get_text]
    includes: ordinary text and CDATA sections.  A [Special] string is one
    that [get_text] leaves out: a comment, a declaration, a processing
    instruction, or the content of a script or style element.  A [Tag] has a
    name and children (attributes are not used by the scripts). *)
Inductive node : Type :=
| NavigableString (s : str)
| Special (s : str)
| Tag (name : str) (children : list node).

(** [.descendants]: every node below [n], in document order. *)
Fixpoint descendants (n : node) : list node :=
  match n with
  | Tag _ children => flat_map (fun c => c :: descendants c) children
  | _ => []
  end.

Definition text_of (n : node) : list str :=
  match n with
  | NavigableString s => [s]
  | _ => []
  end.

(** The strings [get_text] joins. *)
Definition all_strings (n : node) : list str :=
  flat_map text_of (descendants n).

(** [n.get_text()]. *)
Definition get_text (n : node) : str := concat (all_strings n).

(** [n.get_text(strip=True)]: every string is stripped, and dropped when
    nothing is left of it. *)
Definition get_text_strip (n : node) : str :=
  concat (filter (fun s => negb (str_eqb s [])) (map strip (all_strings n))).

Definition has_name (names : list str) (n : node) : bool :=
  match n with
  | Tag name _ => mem name names
  | _ => false
  end.

(** [n.find_all(names)]: the descendant tags with one of the names, in
    document order. *)
Definition find_all (names : list str) (n : node) : list node :=
  filter (has_name names) (descendants n).

End Soup.

(** ** The statement scrapers ([parse_cash.py], [parse_ibkr.py]) *)

Module Statement.
Import Py Soup.

(** Tag names and keywords, as the scripts spell them. *)
Definition table : str := lit "table".
Definition tr : str := lit "tr".
Definition th : str := lit "th".
Definition td : str := lit "td".

Definition Date : str := lit "Date".
Definition Description : str := lit "Description".
Definition Montant : str := lit "Montant".
Definition Symbole : str := lit "Symbole".
Definition Achat : str := lit "Achat".
Definition Vente : str := lit "Vente".
(** "Dépôts": U+00E9 is 233 and U+00F4 is 244. *)
Definition Depots : str := lit "D" ++ [233%N] ++ lit "p" ++ [244%N] ++ lit "ts".
(** "Transfert électronique". *)
Definition Transfert_electronique : str :=
  lit "Transfert " ++ [233%N] ++ lit "lectronique".
(** "Déboursement". *)
Definition Deboursement : str := lit "D" ++ [233%N] ++ lit "boursement".

(** Indexing a list out of range raises. *)
Inductive exn : Type := IndexError.

(** A printed line. *)
Inductive line : Type :=
| CandidateCashTable                 (* --- CANDIDATE CASH TABLE --- *)
| TableHeaders (headers : list str)  (* --- Table Headers: [...] --- *)
| Cells (cells : list str)           (* the list of one row's cell texts *)
| ErrorText (e : exn).               (* print(e) *)

(** What a run can read and change: the parsed document, the lines printed
    so far, and the tables handed to [summarize_table] so far (a trace of
    the calls, not program data). *)
Record world : Type := mkWorld {
  soup : node;
  console : list line;
  summarized : list node
}.

Definition print (l : line) (w : world) : world :=
  mkWorld (soup w) (console w ++ [l]) (summarized w).

(** A block either runs to its end or is left by an exception; what was
    printed before the exception stays printed. *)
Inductive outcome : Type :=
| Done (w : world)
| Raised (e : exn) (w : world).

Definition and_then (o : outcome) (k : world -> outcome) : outcome :=
  match o with
  | Done w => k w
  | Raised e w => Raised e w
  end.

(** [for t in ts: body(t)]. *)
Fixpoint for_each (body : node -> world -> outcome) (ts : list node)
  (w : world) : outcome :=
  match ts with
  | [] => Done w
  | t :: ts' => and_then (body t w) (for_each body ts')
  end.

Definition is_empty {A : Type} (l : list A) : bool :=
  match l with [] => true | _ => false end.

(** [[c.get_text(strip=True) for c in r.find_all(['th', 'td'])]]. *)
Definition header_texts (r : node) : list str :=
  map get_text_strip (find_all [th; td] r).

(** [[td.get_text(strip=True) for td in r.find_all('td')]]. *)
Definition cell_texts (r : node) : list str :=
  map get_text_strip (find_all [td] r).

End Statement.

Module ParseCash.
Import Py Soup Statement.

(** Lines 18-20. *)
Fixpoint print_rows (rs : list node) (w : world) : world :=
  match rs with
  | [] => w
  | r :: rs' => print_rows rs' (print (Cells (cell_texts r)) w)
  end.

(** Lines 11-20: the body of the loop over the tables. *)
Definition visit_table (t : node) (w : world) : outcome :=
  let text := get_text t in
  if contains Transfert_electronique text || contains Deboursement text then
    let rows := find_all [tr] t in
    if is_empty rows then Done w
    else
      match nth_error rows 0 with
      | None => Raised IndexError w
      | Some row0 =>
          let headers := header_texts row0 in
          if mem Date headers && mem Description headers && mem Montant headers
          then Done (print_rows (slice_from 1 rows) (print CandidateCashTable w))
          else Done w
      end
  else Done w.

(** Lines 7-20, from the parsed document on. *)
Definition parse_cash (w : world) : outcome :=
  let tables := find_all [table] (soup w) in
  for_each visit_table tables w.

End ParseCash.

Module ParseIbkr.
Import Py Soup Statement.

(** Lines 8-10. *)
Fixpoint print_rows (rs : list node) (w : world) : world :=
  match rs with
  | [] => w
  | r :: rs' =>
      let cells := cell_texts r in
      print_rows rs' (if is_empty cells then w else print (Cells cells) w)
  end.

(** Lines 3-10. *)
Definition summarize_table (t : node) (w0 : world) : outcome :=
  let w := mkWorld (soup w0) (console w0) (summarized w0 ++ [t]) in
  let rows := find_all [tr] t in
  if is_empty rows then Done w
  else
    match nth_error rows 0 with
    | None => Raised IndexError w
    | Some row0 =>
        let headers := header_texts row0 in
        Done (print_rows (slice 1 4 rows) (print (TableHeaders headers) w))
    end.

(** Lines 17-21: the body of the loop over the tables. *)
Definition visit_table (t : node) (w : world) : outcome :=
  let text := get_text t in
  if contains Symbole text &&
     (contains Achat text || contains Vente text ||
      contains Depots text || contains Date text)
  then summarize_table t w
  else if contains Date text && contains Montant text
  then summarize_table t w
  else Done w.

(** Lines 12-23, from the parsed document on: an exception that leaves the
    loop is printed. *)
Definition parse_ibkr (w : world) : world :=
  let tables := find_all [table] (soup w) in
  match for_each visit_table tables w with
  | Done w' => w'
  | Raised e w' => print (ErrorText e) w'
  end.

End ParseIbkr.

(** ** The valuation-ratio proxy ([scripts/yfinance_server.py]) *)

Module YFinanceServer.
Import Py.

(** The Python values that travel through the handlers: what [json.loads]
    builds, what a ticker's [info] holds and what [json.dumps] is given. *)
Inductive pyval : Type :=
| PyNone
| PyBool (b : bool)
| PyInt (z : Z)
| PyFloat (f : float)
| PyStr (s : str)
| PyList (items : list pyval)
| PyDict (items : list (str * pyval)).

(** A dict with string keys keeps its items in insertion order; assigning to
    a key that is present replaces the value where it stands. *)
Fixpoint dict_get {V : Type} (k : str) (d : list (str * V)) : option V :=
  match d with
  | [] => None
  | (k', v) :: d' => if str_eqb k' k then Some v else dict_get k d'
  end.

Fixpoint dict_set {V : Type} (k : str) (v : V) (d : list (str * V))
  : list (str * V) :=
  match d with
  | [] => [(k, v)]
  | (k', v') :: d' =>
      if str_eqb k' k then (k', v) :: d' else (k', v') :: dict_set k v d'
  end.

(** An exception, with the text [str(e)] gives. *)
Inductive exn : Type := Exception (message : str).

Definition str_of_exn (e : exn) : str :=
  match e with Exception m => m end.

Definition type_name (v : pyval) : str :=
  match v with
  | PyNone => lit "NoneType"
  | PyBool _ => lit "bool"
  | PyInt _ => lit "int"
  | PyFloat _ => lit "float"
  | PyStr _ => lit "str"
  | PyList _ => lit "list"
  | PyDict _ => lit "dict"
  end.

Definition AttributeError_get (v : pyval) : exn :=
  Exception (lit "'" ++ type_name v ++ lit "' object has no attribute 'get'").

Definition TypeError_iter (v : pyval) : exn :=
  Exception (lit "'" ++ type_name v ++ lit "' object is not iterable").

(** A computation that returns or raises. *)
Definition result (A : Type) : Type := exn + A.

Definition bind {A B : Type} (r : result A) (k : A -> result B) : result B :=
  match r with
  | inl e => inl e
  | inr a => k a
  end.

Notation "x <- r ;; k" := (bind r (fun x => k))
  (at level 61, r at next level, right associativity).

(** [v.get(k, default)]: only a dict has the method. *)
Definition py_get (v : pyval) (k : str) (default : pyval) : result pyval :=
  match v with
  | PyDict d => inr (match dict_get k d with Some x => x | None => default end)
  | _ => inl (AttributeError_get v)
  end.

(** The items a [for] loop over [v] visits. *)
Definition py_iter (v : pyval) : result (list pyval) :=
  match v with
  | PyList l => inr l
  | PyDict d => inr (map (fun kv => PyStr (fst kv)) d)
  | PyStr s => inr (map (fun c => PyStr [c]) s)
  | _ => inl (TypeError_iter v)
  end.

(** Truth value, as [or] tests it. *)
Definition truthy (v : pyval) : bool :=
  match v with
  | PyNone => false
  | PyBool b => b
  | PyInt z => negb (Z.eqb z 0)
  | PyFloat f => negb (PrimFloat.eqb f 0%float)
  | PyStr s => negb (str_eqb s [])
  | PyList l => match l with [] => false | _ => true end
  | PyDict d => match d with [] => false | _ => true end
  end.

(** [x if isinstance(x, (int, float)) else None]; a bool is an int. *)
Definition number_or_None (x : pyval) : pyval :=
  match x with
  | PyBool _ | PyInt _ | PyFloat _ => x
  | _ => PyNone
  end.

(** The result of [parse_qs]: every key that is present has at least one
    value (the first, then the others). *)
Definition query_string : Type := list (str * (str * list str)).

(** [qs.get(k, [""])[0]]. *)
Definition first_value (qs : query_string) (k : str) : str :=
  match dict_get k qs with
  | Some (v, _) => v
  | None => []
  end.

(** A request as [do_GET] has it once [urlparse(self.path)] has succeeded:
    the request line as received ([self.requestline]), the path of the
    parsed target, and [parse_qs] of its query. *)
Record request : Type := mkRequest {
  requestline : str;
  path : str;
  query : query_string
}.

(** Calls to the data provider, and lines written to the error stream. *)
Inductive call : Type :=
| InfoCall (ticker : str)       (* yf.Ticker(t).info *)
| SearchCall (q : str).         (* lines 53-64 for the query q *)

Inductive log : Type :=
| FetchError (ticker : str) (e : exn)   (* [yfinance] Error fetching t: e *)
| SearchError (e : exn)                 (* [yfinance] Search error: e *)
| RequestLogged (requestline : str).    (* [yfinance-server] <request line> *)

(** What handling one request does: the status sent by [_set_headers], the
    value whose JSON text is written as the body, the calls made to the data
    provider in order, and the lines written to the error stream in
    order. *)
Record exchange : Type := mkExchange {
  status : Z;
  body : pyval;
  upstream : list call;
  stderr : list log
}.

Definition error_body (message : string) : pyval :=
  PyDict [(lit "error", PyStr (lit message))].

(** What [_set_headers(status)] (lines 19-25) writes to the error stream:
    [send_response] logs the request through [log_message] (lines 113-114),
    which prints the request line.  The four headers it sends are the same
    for every status. *)
Definition _set_headers (self : request) : list log :=
  [RequestLogged (requestline self)].

Definition trailingPE : str := lit "trailingPE".
Definition forwardPE : str := lit "forwardPE".
Definition trailingEps : str := lit "trailingEps".
Definition forwardEps : str := lit "forwardEps".

(** Line 108: the entry of a ticker whose fetch failed. *)
Definition null_entry : pyval :=
  PyDict [(trailingPE, PyNone); (forwardPE, PyNone);
          (trailingEps, PyNone); (forwardEps, PyNone)].

(** Lines 95-105, the body of the [try], on what [yf.Ticker(t).info] gave. *)
Definition pe_entry (fetched : result pyval) : result pyval :=
  info <- fetched ;;
  trailing <- py_get info trailingPE PyNone ;;
  forward <- py_get info forwardPE PyNone ;;
  trailing_eps <- py_get info trailingEps PyNone ;;
  forward_eps <- py_get info forwardEps PyNone ;;
  inr (PyDict [(trailingPE, number_or_None trailing);
               (forwardPE, number_or_None forward);
               (trailingEps, number_or_None trailing_eps);
               (forwardEps, number_or_None forward_eps)]).

(** Lines 66-73, on the decoded answer of the search endpoint. *)
Definition quote_entry (quote : pyval) : result pyval :=
  symbol <- py_get quote (lit "symbol") (PyStr []) ;;
  longname <- py_get quote (lit "longname") PyNone ;;
  name <- (if truthy longname then inr longname
           else py_get quote (lit "shortname") (PyStr [])) ;;
  exchange <- py_get quote (lit "exchDisp") (PyStr []) ;;
  type <- py_get quote (lit "quoteType") (PyStr []) ;;
  inr (PyDict [(lit "symbol", symbol); (lit "name", name);
               (lit "exchange", exchange); (lit "type", type)]).

Fixpoint quote_entries (quotes : list pyval) : result (list pyval) :=
  match quotes with
  | [] => inr []
  | quote :: rest =>
      entry <- quote_entry quote ;;
      entries <- quote_entries rest ;;
      inr (entry :: entries)
  end.

Definition search_results (data : pyval) : result (list pyval) :=
  quotes <- py_get data (lit "quotes") (PyList []) ;;
  items <- py_iter quotes ;;
  quote_entries items.

Section Handlers.
(** The data provider.  [yf_info n t] is what [yf.Ticker(t).info] gives when
    [n] fetches were made earlier in the request: a value, or an exception.
    [yahoo_search q] is what lines 53-64 give for the query [q]: the decoded
    JSON answer, or the exception of the request, the decoding or the
    parsing. *)
Variable yf_info : nat -> str -> result pyval.
Variable yahoo_search : str -> result pyval.

(** The loop of lines 93-108, threading the [result] dict, the calls made
    and the lines logged. *)
Record pe_state : Type := mkPe {
  pe_result : list (str * pyval);
  pe_calls : list call;
  pe_log : list log
}.

Definition pe_step (st : pe_state) (t : str) : pe_state :=
  let calls := pe_calls st ++ [InfoCall t] in
  match pe_entry (yf_info (List.length (pe_calls st)) t) with
  | inr entry => mkPe (dict_set t entry (pe_result st)) calls (pe_log st)
  | inl e =>
      mkPe (dict_set t null_entry (pe_result st)) calls
           (pe_log st ++ [FetchError t e])
  end.

Definition pe_loop (tickers : list str) : pe_state :=
  fold_left pe_step tickers (mkPe [] [] []).

(** Line 85: [[t.strip() for t in raw.split(",") if t.strip()]]. *)
Definition tickers_of (raw : str) : list str :=
  map strip
      (filter (fun t => negb (str_eqb (strip t) [])) (split 44%N raw)).

(** Lines 82-111. *)
Definition _handle_pe (self : request) : exchange :=
  let raw := first_value (query self) (lit "tickers") in
  let tickers := tickers_of raw in
  match tickers with
  | [] =>
      mkExchange 400 (error_body "missing tickers param") []
                 (_set_headers self)
  | _ =>
      let st := pe_loop tickers in
      mkExchange 200 (PyDict (pe_result st)) (pe_calls st)
                 (pe_log st ++ _set_headers self)
  end.

(** Lines 44-80. *)
Definition _handle_search (self : request) : exchange :=
  let query := strip (first_value (query self) (lit "q")) in
  if str_eqb query [] then
    mkExchange 400 (error_body "missing q param") [] (_set_headers self)
  else
    match (data <- yahoo_search query ;; search_results data) with
    | inr results =>
        mkExchange 200 (PyList results) [SearchCall query] (_set_headers self)
    | inl e =>
        mkExchange 500 (PyDict [(lit "error", PyStr (str_of_exn e))])
                   [SearchCall query] (SearchError e :: _set_headers self)
    end.

(** Lines 30-42.  [parsed] is what line 31 gives: [urlparse(self.path)]
    raises a ValueError for a target it cannot take apart (an unclosed
    bracket in the host, say); nothing catches it, so the exception leaves
    [do_GET] and no response is sent. *)
Definition do_GET (parsed : result request) : result exchange :=
  self <- parsed ;;
  inr (if str_eqb (path self) (lit "/pe") then _handle_pe self
       else if str_eqb (path self) (lit "/search") then _handle_search self
       else if str_eqb (path self) (lit "/health") then
         mkExchange 200 (PyDict [(lit "status", PyStr (lit "ok"))]) []
                    (_set_headers self)
       else mkExchange 404 (error_body "not found") [] (_set_headers self)).

End Handlers.

End YFinanceServer.

(** ** Vocabulary of the properties *)

Module Spec.
Import Py Soup Statement.

(** [sub] occurs in [s]. *)
Definition Substring (sub s : str) : Prop :=
  exists pre post, s = pre ++ sub ++ post.

(** [s] is [pieces] with one [sep] between neighbours, and no piece holds a
    [sep]: the pieces are the segments of [s] between the separators. *)
Definition Segments (sep : N) (pieces : list str) (s : str) : Prop :=
  pieces <> [] /\ join sep pieces = s /\ Forall (fun p => ~ In sep p) pieces.

(** [w] after [out] more lines were printed. *)
Definition emit (w : world) (out : list line) : world :=
  mkWorld (soup w) (console w ++ out) (summarized w).

(** [w] after [ts] more tables were handed to [summarize_table]. *)
Definition hand_over (w : world) (ts : list node) : world :=
  mkWorld (soup w) (console w) (summarized w ++ ts).

(** Row 0 of the table [t] has a cell whose text is [k]. *)
Definition header_has (t : node) (k : str) : Prop :=
  exists row0 rest,
    find_all [tr] t = row0 :: rest /\ In k (header_texts row0).

(** A cash-movement keyword occurs in the text of [t]. *)
Definition has_cash_keyword (t : node) : Prop :=
  Substring Transfert_electronique (get_text t) \/
  Substring Deboursement (get_text t).

(** The text of [t] has the symbol keyword and one of the buy, sell,
    deposits and date keywords. *)
Definition text_has_symbol_and_trade (t : node) : Prop :=
  Substring Symbole (get_text t) /\
  (Substring Achat (get_text t) \/ Substring Vente (get_text t) \/
   Substring Depots (get_text t) \/ Substring Date (get_text t)).

(** The transaction rule in the words of the specification: the second
    alternative looks at the header row. *)
Definition transaction_rule_of_spec (t : node) : Prop :=
  text_has_symbol_and_trade t \/
  (header_has t Date /\ header_has t Montant).

(** The transaction rule with both alternatives on the full text. *)
Definition transaction_rule_on_text (t : node) : Prop :=
  text_has_symbol_and_trade t \/
  (Substring Date (get_text t) /\ Substring Montant (get_text t)).

(** [parse_ibkr.py] classifies [t] as a transaction table: the loop body
    hands it to [summarize_table]. *)
Definition classified_as_transaction (t : node) : Prop :=
  forall w, ParseIbkr.visit_table t w = ParseIbkr.summarize_table t w.

(** The subsequences of [l] of length [r], by the textbook recursion. *)
Fixpoint choose {A : Type} (r : nat) (l : list A) : list (list A) :=
  match r with
  | O => [[]]
  | S r' =>
      match l with
      | [] => []
      | x :: xs => map (cons x) (choose r' xs) ++ choose r xs
      end
  end.

(** The test of lines 18 and 20 of [parse_ibkr.py]. *)
Definition passes_transaction_test (t : node) : bool :=
  let text := get_text t in
  contains Symbole text &&
    (contains Achat text || contains Vente text ||
     contains Depots text || contains Date text) ||
  contains Date text && contains Montant text.

(** The lines [parse_cash.py] prints for the data rows [rows]. *)
Definition row_lines (rows : list node) : list line :=
  map (fun r => Cells (cell_texts r)) rows.

(** The lines [parse_cash.py] prints for the table [t]. *)
Definition cash_lines (t : node) : list line :=
  if contains Transfert_electronique (get_text t) ||
     contains Deboursement (get_text t)
  then
    match find_all [tr] t with
    | [] => []
    | row0 :: rest =>
        if mem Date (header_texts row0) &&
           mem Description (header_texts row0) &&
           mem Montant (header_texts row0)
        then CandidateCashTable :: row_lines rest
        else []
    end
  else [].

(** The lines [summarize_table] prints for the table [t]: the headers, then
    the non-empty ones among rows 1 to 3. *)
Definition summary_lines (t : node) : list line :=
  match find_all [tr] t with
  | [] => []
  | row0 :: _ =>
      TableHeaders (header_texts row0) ::
      flat_map (fun r => if is_empty (cell_texts r) then []
                         else [Cells (cell_texts r)])
               (slice 1 4 (find_all [tr] t))
  end.

(** The lines [parse_ibkr.py] prints for the table [t]. *)
Definition ibkr_lines (t : node) : list line :=
  if passes_transaction_test t then summary_lines t else [].

(** A table whose only mention of the date and amount keywords is in a data
    row: its header row has the single cell "X". *)
Definition keywords_in_body : node :=
  Tag table
    [Tag tr [Tag th [NavigableString (lit "X")]];
     Tag tr [Tag td [NavigableString Date];
             Tag td [NavigableString Montant]]].

(** A cash table: header row Date, Description, Montant and one transfer. *)
Definition sample_cash_table : node :=
  Tag table
    [Tag tr [Tag th [NavigableString Date];
             Tag th [NavigableString Description];
             Tag th [NavigableString Montant]];
     Tag tr [Tag td [NavigableString (lit "2025-03-01")];
             Tag td [NavigableString Transfert_electronique];
             Tag td [NavigableString (lit " 500.00 ")]]].

(** A document that holds the cash table and a table without rows. *)
Definition sample_document : node :=
  Tag (lit "[document]")
    [Tag (lit "html")
       [Tag (lit "body") [Tag table []; sample_cash_table]]].

Definition sample_world : world := mkWorld sample_document [] [].

(** A data provider that is down, and requests to try the proxy on. *)
Definition provider_down {K : Type} (_ : K) : YFinanceServer.result YFinanceServer.pyval :=
  inl (YFinanceServer.Exception (lit "HTTP Error 404: Not Found")).

(** A request line for [target] with the parameter value [v], its spaces
    written as [+]. *)
Definition request_line (target : string) (v : string) : str :=
  lit "GET " ++ lit target ++
  map (fun c => if N.eqb c 32 then 43%N else c) (lit v) ++ lit " HTTP/1.1".

Definition pe_request (raw : string) : YFinanceServer.request :=
  YFinanceServer.mkRequest (request_line "/pe?tickers=" raw) (lit "/pe")
    [(lit "tickers", (lit raw, []))].

Definition search_request (q : string) : YFinanceServer.request :=
  YFinanceServer.mkRequest (request_line "/search?q=" q) (lit "/search")
    [(lit "q", (lit q, []))].

(** The [q] parameter of the query is missing, empty or whitespace only. *)
Definition blank_parameter (k : str) (qs : YFinanceServer.query_string) : Prop :=
  match YFinanceServer.dict_get k qs with
  | None => True
  | Some (v, _) => Forall (fun c => isspace c = true) v
  end.

(** Trim every segment and drop those that are empty after trimming. *)
Definition trim_and_drop_empty (segments : list str) : list str :=
  filter (fun t => negb (str_eqb t [])) (map strip segments).

(** [c] sums to less than the target of the script minus the tolerance. *)
Definition below_target (pysum : list float -> float) (c : list float) : bool :=
  PrimFloat.ltb (pysum c) (FindSum.target - FindSum.tolerance)%float.

(** The run of the script under [pysum] ends normally and prints the
    completion line only; each of the 352 combinations it examines sums to
    less than the target minus the tolerance, the whole pool among them,
    which sums to 16761.13. *)
Definition prints_only_completion_line (pysum : list float -> float) : Prop :=
  let r := FindSum.find_sum pysum FindSum.all_vals FindSum.target in
  FindSum.stdout r = [FindSum.SearchDone] /\ FindSum.raised r = None /\
  List.length (FindSum.examined r) = 352 /\
  In FindSum.all_vals (FindSum.examined r) /\
  pysum FindSum.all_vals = 16761.13%float /\
  forall c, In c (FindSum.examined r) -> below_target pysum c = true.

(** The values of [pool] at the positions [idx]. *)
Definition pick (pool : list float) (idx : list nat) : list float :=
  map (fun i => nth i pool 0%float) idx.

(** Lexicographic order on lists of positions. *)
Fixpoint lex_lt (a b : list nat) : Prop :=
  match a, b with
  | [], [] => False
  | [], _ :: _ => True
  | _ :: _, [] => False
  | x :: a', y :: b' => x < y \/ (x = y /\ lex_lt a' b')
  end.

(** Shorter first; lexicographic among equal sizes. *)
Definition size_lex (a b : list nat) : Prop :=
  List.length a < List.length b \/
  (List.length a = List.length b /\ lex_lt a b).

(** [idx] selects positions of a pool of size [n], in input order. *)
Definition positions (n : nat) (idx : list nat) : Prop :=
  StronglySorted lt idx /\ Forall (fun i => i < n) idx.

(** The size of [idx] is one of [n-2], [n-1], [n]. *)
Definition near_full_size (n : nat) (idx : list nat) : Prop :=
  (Z.of_nat n - 2 <= Z.of_nat (List.length idx) <= Z.of_nat n)%Z.

(** The search examines exactly the selections of the three sizes, each
    once, smaller sizes first and each size in lexicographic order. *)
Definition examines_near_full_sizes
  (pysum : list float -> float) (pool : list float) (target : float) : Prop :=
  exists idxs : list (list nat),
    FindSum.examined (FindSum.find_sum pysum pool target) = map (pick pool) idxs /\
    (forall idx, In idx idxs <->
                 positions (List.length pool) idx /\
                 near_full_size (List.length pool) idx) /\
    StronglySorted size_lex idxs.

End Spec.

(** ** Vocabulary of the further properties *)

Module Props.
Import Py Soup Statement.

(** [c] is [l] with some items left out, the others in their order. *)
Inductive Subsequence {A : Type} : list A -> list A -> Prop :=
| sub_nil : Subsequence [] []
| sub_skip (x : A) (c l : list A) : Subsequence c l -> Subsequence c (x :: l)
| sub_keep (x : A) (c l : list A) :
    Subsequence c l -> Subsequence (x :: c) (x :: l).

(** The line printed for a combination that passes the test. *)
Definition match_line (pysum : list float -> float) (c : list float)
  : FindSum.line :=
  FindSum.Match (pysum c) c.

(** The line that closes a run that was not left by an exception. *)
Definition closing_lines (raised : option FindSum.exn) : list FindSum.line :=
  match raised with
  | None => [FindSum.SearchDone]
  | Some _ => []
  end.

(** [s] has no whitespace at either end. *)
Definition trimmed (s : str) : Prop :=
  s <> [] -> isspace (hd 0%N s) = false /\ isspace (last s 0%N) = false.

(** A value the proxy lets through in a ratio entry: [None] or a number. *)
Definition number_or_null (v : YFinanceServer.pyval) : Prop :=
  match v with
  | YFinanceServer.PyNone | YFinanceServer.PyBool _
  | YFinanceServer.PyInt _ | YFinanceServer.PyFloat _ => True
  | _ => False
  end.

(** An entry of the body of [/pe]: the four fields, in this order, each
    [None] or a number. *)
Definition ratio_entry (v : YFinanceServer.pyval) : Prop :=
  exists a b c d,
    v = YFinanceServer.PyDict
          [(YFinanceServer.trailingPE, a); (YFinanceServer.forwardPE, b);
           (YFinanceServer.trailingEps, c); (YFinanceServer.forwardEps, d)] /\
    number_or_null a /\ number_or_null b /\ number_or_null c /\
    number_or_null d.

(** What lines 94-108 store for a ticker, given what its fetch gave. *)
Definition entry_of (fetched : YFinanceServer.result YFinanceServer.pyval)
  : YFinanceServer.pyval :=
  match YFinanceServer.pe_entry fetched with
  | inr entry => entry
  | inl _ => YFinanceServer.null_entry
  end.

(** The lines logged for the fetches of [tickers] that fail, when [n]
    fetches were made before. *)
Fixpoint failures
  (yf_info : nat -> str -> YFinanceServer.result YFinanceServer.pyval)
  (n : nat) (tickers : list str) : list YFinanceServer.log :=
  match tickers with
  | [] => []
  | t :: rest =>
      match YFinanceServer.pe_entry (yf_info n t) with
      | inl e => [YFinanceServer.FetchError t e]
      | inr _ => []
      end ++ failures yf_info (S n) rest
  end.

Definition is_dict (v : YFinanceServer.pyval) : Prop :=
  exists d, v = YFinanceServer.PyDict d.

(** An entry of the body of [/search]: the four fields, in this order. *)
Definition search_entry (v : YFinanceServer.pyval) : Prop :=
  exists a b c d,
    v = YFinanceServer.PyDict
          [(lit "symbol", a); (lit "name", b); (lit "exchange", c);
           (lit "type", d)].

(** The decoded answer [data] can be used: it is an object, and what it
    holds under "quotes" (nothing counts as the empty list) can be iterated
    and yields the objects [quotes]. *)
Definition usable_answer
  (data : YFinanceServer.pyval) (quotes : list YFinanceServer.pyval) : Prop :=
  exists d,
    data = YFinanceServer.PyDict d /\
    YFinanceServer.py_iter
      (match YFinanceServer.dict_get (lit "quotes") d with
       | Some q => q
       | None => YFinanceServer.PyList []
       end) = inr quotes /\
    Forall is_dict quotes.

(** The path is none of the three the proxy serves. *)
Definition unknown_path (p : str) : Prop :=
  p <> lit "/pe" /\ p <> lit "/search" /\ p <> lit "/health".

(** A document whose one top-level table holds another table in a cell. *)
Definition nested_inner : node :=
  Tag table [Tag tr [Tag td [NavigableString (lit "x")]]].

Definition nested_outer : node := Tag table [Tag tr [Tag td [nested_inner]]].

Definition nested_world : world :=
  mkWorld (Tag (lit "[document]") [nested_outer]) [] [].

(** The tickers in the order they first appear, those in [seen] left out. *)
Fixpoint first_occurrences (seen tickers : list str) : list str :=
  match tickers with
  | [] => []
  | t :: rest =>
      if mem t seen then first_occurrences seen rest
      else t :: first_occurrences (seen ++ [t]) rest
  end.

(** A data provider that answers: the ratios of a ticker (one of them not
    a number), and one quote for a search. *)
Definition sample_info : YFinanceServer.pyval :=
  YFinanceServer.PyDict
    [(YFinanceServer.trailingPE, YFinanceServer.PyFloat 25.5%float);
     (YFinanceServer.forwardPE, YFinanceServer.PyStr (lit "n/a"))].

Definition sample_quote : YFinanceServer.pyval :=
  YFinanceServer.PyDict
    [(lit "symbol", YFinanceServer.PyStr (lit "MC.PA"));
     (lit "shortname", YFinanceServer.PyStr (lit "LVMH"))].

Definition sample_answer : YFinanceServer.pyval :=
  YFinanceServer.PyDict [(lit "quotes", YFinanceServer.PyList [sample_quote])].

Definition provider_up {K : Type} (v : YFinanceServer.pyval) (_ : K)
  : YFinanceServer.result YFinanceServer.pyval := inr v.

(** A data provider whose first fetch of a request fails and whose later
    fetches answer. *)
Definition recovering_provider (n : nat) (_ : str)
  : YFinanceServer.result YFinanceServer.pyval :=
  match n with
  | O => inl (YFinanceServer.Exception (lit "HTTP Error 404: Not Found"))
  | S _ => inr sample_info
  end.

(** The failure rule of [/pe] in the words of the specification: a fetch
    of a ticker that raises, at whatever place of the list, leaves the
    all-None entry under that ticker in a 200 answer. *)
Definition any_failed_fetch_gives_null_entry
  (yf_info : nat -> str -> YFinanceServer.result YFinanceServer.pyval)
  (yahoo_search : str -> YFinanceServer.result YFinanceServer.pyval)
  (req : YFinanceServer.request) : Prop :=
  forall i t e,
    nth_error
      (YFinanceServer.tickers_of
         (YFinanceServer.first_value (YFinanceServer.query req) (lit "tickers")))
      i = Some t ->
    yf_info i t = inl e ->
    exists x d,
      YFinanceServer.do_GET yf_info yahoo_search (inr req) = inr x /\
      YFinanceServer.status x = 200%Z /\
      YFinanceServer.body x = YFinanceServer.PyDict d /\
      YFinanceServer.dict_get t d = Some YFinanceServer.null_entry.

(** The entry count of [/pe] in the words of the specification: as many
    entries in the body as segments survive trimming. *)
Definition one_entry_per_surviving_segment
  (yf_info : nat -> str -> YFinanceServer.result YFinanceServer.pyval)
  (yahoo_search : str -> YFinanceServer.result YFinanceServer.pyval)
  (req : YFinanceServer.request) : Prop :=
  forall segments,
    Spec.Segments 44 segments
      (YFinanceServer.first_value (YFinanceServer.query req) (lit "tickers")) ->
    Spec.trim_and_drop_empty segments <> [] ->
    exists x d,
      YFinanceServer.do_GET yf_info yahoo_search (inr req) = inr x /\
      YFinanceServer.body x = YFinanceServer.PyDict d /\
      List.length d = List.length (Spec.trim_and_drop_empty segments).

End Props.

(* ================================================================== *)
(** * Part II. Properties                                              *)
(* ================================================================== *)

(** ** The embedding on small inputs *)

Section Examples.
Import FindSum Py Soup Statement YFinanceServer Spec.

Example combinations_of_three :
  combinations 2 [1; 2; 3] = [[1; 2]; [1; 3]; [2; 3]].
Proof. reflexivity. Qed.

Example range_from_negative : py_range (-1) 2 = [-1; 0; 1]%Z.
Proof. reflexivity. Qed.

Example search_of_three :
  find_sum sum_plain [1; 2; 3]%float 5%float =
  mkRun [Match 5%float [2; 3]%float; SearchDone]
        [[1]; [2]; [3]; [1; 2]; [1; 3]; [2; 3]; [1; 2; 3]]%float None.
Proof. vm_compute. reflexivity. Qed.

Example search_of_one :
  find_sum sum_plain [1]%float 1%float = mkRun [] [] (Some ValueError).
Proof. vm_compute. reflexivity. Qed.

Example strip_spaces_and_nbsp :
  strip (lit "  MC.PA ") = lit "MC.PA" /\ strip [160; 65; 9]%N = [65]%N.
Proof. split; reflexivity. Qed.

Example split_keeps_empty_pieces :
  split 44 (lit "a,,b") = [lit "a"; []; lit "b"] /\ split 44 [] = [[]].
Proof. split; reflexivity. Qed.

Example tickers_of_padded_list :
  tickers_of (lit " AAPL , ,MC.PA,") = [lit "AAPL"; lit "MC.PA"].
Proof. reflexivity. Qed.

(** A cell split over several strings: the stripped text glues the pieces,
    the plain text keeps the blanks, the comment is in neither. *)
Example cell_with_markup :
  let cell := Tag td [NavigableString (lit " Da ");
                      Tag (lit "b") [NavigableString (lit " te ")];
                      Special (lit "note")] in
  get_text_strip cell = lit "Date" /\ get_text cell = lit " Da  te ".
Proof. split; reflexivity. Qed.

Example rows_of_nested_tables :
  let inner := Tag table [Tag tr [Tag td [NavigableString (lit "x")]]] in
  let outer := Tag table [Tag tr [Tag td [inner]]] in
  find_all [table] (Tag (lit "[document]") [outer]) = [outer; inner] /\
  List.length (find_all [tr] outer) = 2.
Proof. split; reflexivity. Qed.

Example cash_run_on_sample :
  ParseCash.parse_cash sample_world =
  Done (emit sample_world
          [CandidateCashTable;
           Cells [lit "2025-03-01"; Transfert_electronique; lit "500.00"]]).
Proof. reflexivity. Qed.

Example ibkr_run_on_sample :
  console (ParseIbkr.parse_ibkr sample_world) =
  [TableHeaders [Date; Description; Montant];
   Cells [lit "2025-03-01"; Transfert_electronique; lit "500.00"]].
Proof. reflexivity. Qed.

Example health_and_unknown_path :
  do_GET (fun _ => provider_down) provider_down
         (inr (mkRequest (lit "GET /health HTTP/1.1") (lit "/health") [])) =
    inr (mkExchange 200 (PyDict [(lit "status", PyStr (lit "ok"))]) []
           [RequestLogged (lit "GET /health HTTP/1.1")]) /\
  do_GET (fun _ => provider_down) provider_down
         (inr (mkRequest (lit "GET /nowhere HTTP/1.1") (lit "/nowhere") [])) =
    inr (mkExchange 404 (PyDict [(lit "error", PyStr (lit "not found"))]) []
           [RequestLogged (lit "GET /nowhere HTTP/1.1")]).
Proof. split; reflexivity. Qed.

Example target_that_urlparse_refuses :
  do_GET (fun _ => provider_down) provider_down
         (inl (Exception (lit "Invalid IPv6 URL"))) =
  inl (Exception (lit "Invalid IPv6 URL")).
Proof. reflexivity. Qed.

Example repeated_ticker_has_one_entry :
  do_GET (fun _ => provider_down) provider_down (inr (pe_request "A,A")) =
  inr (mkExchange 200 (PyDict [(lit "A", null_entry)])
         [InfoCall (lit "A"); InfoCall (lit "A")]
         [FetchError (lit "A") (Exception (lit "HTTP Error 404: Not Found"));
          FetchError (lit "A") (Exception (lit "HTTP Error 404: Not Found"));
          RequestLogged (lit "GET /pe?tickers=A,A HTTP/1.1")]).
Proof. reflexivity. Qed.

Example search_when_provider_is_down :
  do_GET (fun _ => provider_down) provider_down (inr (search_request "LVMH")) =
  inr (mkExchange 500
         (PyDict [(lit "error", PyStr (lit "HTTP Error 404: Not Found"))])
         [SearchCall (lit "LVMH")]
         [SearchError (Exception (lit "HTTP Error 404: Not Found"));
          RequestLogged (lit "GET /search?q=LVMH HTTP/1.1")]).
Proof. reflexivity. Qed.

Example search_with_one_quote :
  let answer :=
    PyDict [(lit "quotes",
             PyList [PyDict [(lit "symbol", PyStr (lit "MC.PA"));
                             (lit "shortname", PyStr (lit "LVMH"));
                             (lit "quoteType", PyStr (lit "EQUITY"))]])] in
  do_GET (fun _ => provider_down) (fun _ => inr answer)
         (inr (search_request " LVMH ")) =
  inr (mkExchange 200
         (PyList [PyDict [(lit "symbol", PyStr (lit "MC.PA"));
                          (lit "name", PyStr (lit "LVMH"));
                          (lit "exchange", PyStr []);
                          (lit "type", PyStr (lit "EQUITY"))]])
         [SearchCall (lit "LVMH")]
         [RequestLogged (lit "GET /search?q=+LVMH+ HTTP/1.1")]).
Proof. reflexivity. Qed.

End Examples.

(** ** Lists *)

Section ListFacts.
Context {A B : Type}.

Lemma StronglySorted_app (R : A -> A -> Prop) (l1 l2 : list A) :
  StronglySorted R l1 -> StronglySorted R l2 ->
  (forall x y, In x l1 -> In y l2 -> R x y) ->
  StronglySorted R (l1 ++ l2).
Proof.
  induction l1 as [|a l1 IH]; simpl; intros H1 H2 Hx; [assumption|].
  inversion H1 as [|? ? Hs Hf]; subst.
  constructor.
  - apply IH; auto.
  - apply Forall_app; split; [assumption|].
    apply Forall_forall; intros y Hy; apply Hx; auto.
Qed.

Lemma StronglySorted_map (R : A -> A -> Prop) (R' : B -> B -> Prop)
  (f : A -> B) (l : list A) :
  (forall x y, R x y -> R' (f x) (f y)) ->
  StronglySorted R l -> StronglySorted R' (map f l).
Proof.
  intros Hf; induction 1 as [|a l Hs IH Hall]; simpl; constructor; auto.
  apply Forall_map. eapply Forall_impl; [|exact Hall]. auto.
Qed.

End ListFacts.

(** ** The reconciliation search *)

Section Combinations.
Import FindSum Spec.

Lemma choose_short {A : Type} (r : nat) (l : list A) :
  List.length l < r -> choose r l = [].
Proof.
  revert r; induction l as [|x xs IH]; intros [|r] Hlt; simpl in *;
    try lia; try reflexivity.
  rewrite !IH by lia. reflexivity.
Qed.

Lemma combinations_choose {A : Type} (r : nat) (l : list A) :
  combinations r l = choose r l.
Proof.
  revert r; induction l as [|x xs IH]; intros [|r]; simpl; try reflexivity.
  destruct (Nat.ltb_spec (List.length xs) r) as [Hlt|Hge].
  - rewrite !choose_short by lia. reflexivity.
  - rewrite !IH. reflexivity.
Qed.

Lemma choose_whole {A : Type} (l : list A) : In l (choose (List.length l) l).
Proof.
  induction l as [|x xs IH]; simpl; [left; reflexivity|].
  apply in_or_app. left. apply in_map. exact IH.
Qed.

Lemma choose_map {A B : Type} (f : A -> B) (r : nat) (l : list A) :
  choose r (map f l) = map (map f) (choose r l).
Proof.
  revert r; induction l as [|x xs IH]; intros [|r]; simpl; try reflexivity.
  rewrite map_app, !IH, !map_map. reflexivity.
Qed.

Lemma choose_length {A : Type} (r : nat) (l c : list A) :
  In c (choose r l) -> List.length c = r.
Proof.
  revert r c; induction l as [|x xs IH]; intros [|r] c; simpl.
  - intros [<-|[]]; reflexivity.
  - intros [].
  - intros [<-|[]]; reflexivity.
  - rewrite in_app_iff, in_map_iff.
    intros [(c' & <- & Hc')|Hc].
    + simpl. f_equal. apply IH; assumption.
    + apply IH; assumption.
Qed.

Lemma choose_zero {A : Type} (l : list A) : choose 0 l = [[]].
Proof. destruct l; reflexivity. Qed.

Lemma in_choose_seq (n a r : nat) (idx : list nat) :
  In idx (choose r (seq a n)) <->
  StronglySorted lt idx /\ Forall (fun i => a <= i < a + n) idx /\
  List.length idx = r.
Proof.
  revert a r idx; induction n as [|n IH]; intros a r idx.
  - destruct r as [|r]; simpl; split.
    + intros [<-|[]]. repeat split; constructor.
    + intros (_ & _ & Hl). left. destruct idx; [reflexivity|discriminate].
    + intros [].
    + intros (_ & Hb & Hl). destruct idx as [|i idx]; [discriminate|].
      inversion Hb; subst. lia.
  - destruct r as [|r].
    + rewrite choose_zero. simpl. split.
      * intros [<-|[]]. repeat split; constructor.
      * intros (_ & _ & Hl). left. destruct idx; [reflexivity|discriminate].
    + simpl. rewrite in_app_iff, in_map_iff. split.
      * intros [(idx' & <- & Hin)|Hin].
        -- apply IH in Hin. destruct Hin as (Hs & Hb & Hl).
           repeat split.
           ++ constructor; [assumption|].
              eapply Forall_impl; [|exact Hb]. simpl; intros; lia.
           ++ constructor; [lia|].
              eapply Forall_impl; [|exact Hb]. simpl; intros; lia.
           ++ simpl; congruence.
        -- apply IH in Hin. destruct Hin as (Hs & Hb & Hl).
           repeat split; try assumption.
           eapply Forall_impl; [|exact Hb]. simpl; intros; lia.
      * intros (Hs & Hb & Hl).
        destruct idx as [|i idx']; [discriminate|].
        inversion Hs as [|? ? Hs' Hlt]; subst.
        inversion Hb as [|? ? Hi Hb']; subst.
        assert (Hrest : Forall (fun j => S a <= j < S a + n) idx').
        { rewrite Forall_forall in *. intros j Hj.
          specialize (Hlt j Hj). specialize (Hb' j Hj). simpl in *. lia. }
        destruct (Nat.eq_dec i a) as [->|Hne].
        -- left. exists idx'. split; [reflexivity|].
           apply IH. repeat split; try assumption.
           simpl in Hl. congruence.
        -- right. apply IH. repeat split; try assumption.
           constructor; [lia|assumption].
Qed.

Lemma lex_lt_cons (a : nat) (x y : list nat) :
  lex_lt x y -> lex_lt (a :: x) (a :: y).
Proof. intros H; simpl; right; split; [reflexivity|assumption]. Qed.

Lemma sorted_choose_seq (n a r : nat) :
  StronglySorted lex_lt (choose r (seq a n)).
Proof.
  revert a r; induction n as [|n IH]; intros a r.
  - destruct r; simpl; repeat constructor.
  - destruct r as [|r].
    + rewrite choose_zero. repeat constructor.
    + simpl. apply StronglySorted_app.
      * apply StronglySorted_map with (R := lex_lt); [|apply IH].
        intros x y; apply lex_lt_cons.
      * apply IH.
      * intros x y Hx Hy.
        apply in_map_iff in Hx. destruct Hx as (x' & <- & _).
        apply in_choose_seq in Hy. destruct Hy as (_ & Hb & Hl).
        destruct y as [|j y']; [discriminate|].
        inversion Hb; subst. simpl. left. lia.
Qed.

Lemma pick_seq (pool : list float) :
  map (fun i => nth i pool 0%float) (seq 0 (List.length pool)) = pool.
Proof.
  induction pool as [|x xs IH]; simpl; [reflexivity|].
  rewrite <- seq_shift, map_map. simpl. rewrite IH. reflexivity.
Qed.

Lemma choose_pick (r : nat) (pool : list float) :
  choose r pool =
  map (pick pool) (choose r (seq 0 (List.length pool))).
Proof.
  unfold pick. rewrite <- choose_map, pick_seq. reflexivity.
Qed.

End Combinations.

Section SearchFacts.
Import FindSum Spec.
Variable pysum : list float -> float.
Variable pool : list float.
Variable target : float.

Lemma py_range_three (n : Z) :
  py_range (n - 2) (n + 1) = [n - 2; n - 1; n]%Z.
Proof.
  unfold py_range. replace (n + 1 - (n - 2))%Z with 3%Z by lia.
  change (Z.to_nat 3) with 3. cbn [seq map].
  f_equal; [lia|]. f_equal; [lia|]. f_equal; lia.
Qed.

Lemma in_inner_loop (cs : list (list float)) (s : float) (c : list float) :
  In (Match s c) (inner_loop pysum target cs) <->
  In c cs /\ s = pysum c /\ within_tolerance pysum target c = true.
Proof.
  induction cs as [|c0 cs IH]; simpl.
  - tauto.
  - destruct (within_tolerance pysum target c0) eqn:Hc0; simpl; rewrite IH.
    + split.
      * intros [Heq|(Hin & Hs & Hw)]; [|tauto].
        injection Heq as <- <-. tauto.
      * intros ([<-|Hin] & -> & Hw); [left; reflexivity|right; tauto].
    + split; [tauto|].
      intros ([<-|Hin] & Hs & Hw); [congruence|tauto].
Qed.

Lemma in_outer_loop (rs : list Z) (s : float) (c : list float) :
  In (Match s c) (stdout (outer_loop pysum pool target rs)) ->
  s = pysum c /\ within_tolerance pysum target c = true /\
  In c (examined (outer_loop pysum pool target rs)).
Proof.
  induction rs as [|r rs IH]; cbn [outer_loop].
  - simpl. intros [H|[]]; discriminate.
  - destruct (itertools_combinations pool r) as [e|cs]; cbn [stdout examined In];
      [intros []|].
    rewrite !in_app_iff, in_inner_loop. intros [(Hin & Hs & Hw)|Hin].
    + tauto.
    + destruct (IH Hin) as (Hs & Hw & Hex). tauto.
Qed.

Lemma combinations_nonneg (r : Z) :
  (0 <= r)%Z ->
  itertools_combinations pool r = inr (combinations (Z.to_nat r) pool).
Proof.
  intros Hr. unfold itertools_combinations.
  destruct (Z.ltb_spec r 0); [lia|reflexivity].
Qed.

Lemma find_sum_runs :
  2 <= List.length pool ->
  let n := List.length pool in
  let r := find_sum pysum pool target in
  raised r = None /\
  examined r =
    choose (n - 2) pool ++ choose (n - 1) pool ++ choose n pool /\
  stdout r =
    inner_loop pysum target (choose (n - 2) pool) ++
    inner_loop pysum target (choose (n - 1) pool) ++
    inner_loop pysum target (choose n pool) ++ [SearchDone].
Proof.
  intros Hn. cbv zeta. unfold find_sum. rewrite py_range_three. simpl.
  rewrite !combinations_nonneg by lia. simpl.
  replace (Z.to_nat (Z.of_nat (List.length pool) - 2)) with (List.length pool - 2) by lia.
  replace (Z.to_nat (Z.of_nat (List.length pool) - 1)) with (List.length pool - 1) by lia.
  rewrite Nat2Z.id, app_nil_r, !combinations_choose. auto.
Qed.

Lemma find_sum_small_pool :
  List.length pool < 2 ->
  find_sum pysum pool target = mkRun [] [] (Some ValueError).
Proof.
  intros Hn. unfold find_sum. rewrite py_range_three. simpl.
  unfold itertools_combinations.
  destruct (Z.ltb_spec (Z.of_nat (List.length pool) - 2) 0); [reflexivity|lia].
Qed.

Lemma size_lex_of_lex (r : nat) (l : list (list nat)) :
  (forall x, In x l -> List.length x = r) ->
  StronglySorted lex_lt l -> StronglySorted size_lex l.
Proof.
  intros Hlen; induction 1 as [|a l Hs IH Hall]; constructor.
  - apply IH. intros x Hx; apply Hlen; right; assumption.
  - rewrite Forall_forall in *. intros y Hy. right. split.
    + rewrite (Hlen a), (Hlen y); simpl; auto.
    + apply Hall; assumption.
Qed.

Lemma sorted_block (n r : nat) :
  StronglySorted size_lex (choose r (seq 0 n)).
Proof.
  apply size_lex_of_lex with (r := r).
  - intros x Hx. eapply choose_length; eassumption.
  - apply sorted_choose_seq.
Qed.

End SearchFacts.

Section SearchClaims.
Import FindSum Spec.

Lemma positions_seq (n : nat) (idx : list nat) :
  positions n idx <->
  StronglySorted lt idx /\ Forall (fun i => 0 <= i < 0 + n) idx.
Proof.
  unfold positions. split; intros (Hs & Hb); (split; [assumption|]);
    (eapply Forall_impl; [|exact Hb]); simpl; intros; lia.
Qed.

(** C4: whatever the pool, the target and the interpreter's [sum], a line
    [MATCH: s with c] is printed only for a combination [c] whose sum [s]
    passes the test of line 21, [abs(sum(c) - target) < 0.05]. *)
Theorem reported_match_within_tolerance
  (pysum : list float -> float) (pool : list float) (target s : float)
  (c : list float) :
  In (Match s c) (stdout (find_sum pysum pool target)) ->
  s = pysum c /\
  PrimFloat.ltb (PrimFloat.abs (s - target)%float) tolerance = true.
Proof.
  intros Hin. apply in_outer_loop in Hin. destruct Hin as (-> & Hw & _).
  split; [reflexivity|exact Hw].
Qed.

Lemma reported_match_within_tolerance_witness :
  5%float = sum_plain [2; 3]%float /\
  PrimFloat.ltb (PrimFloat.abs (5 - 5)%float) tolerance = true.
Proof.
  apply (@reported_match_within_tolerance sum_plain [1; 2; 3]%float 5%float).
  vm_compute. left. reflexivity.
Defined.

(** C5, amended: for a pool of at least two values the search runs to its
    end and examines exactly the selections of sizes N-2, N-1 and N, each
    once, smaller sizes first and each size in lexicographic order of the
    positions in the pool. *)
Theorem examines_sizes_of_pool_with_two
  (pysum : list float -> float) (pool : list float) (target : float) :
  2 <= List.length pool ->
  raised (find_sum pysum pool target) = None /\
  examines_near_full_sizes pysum pool target.
Proof.
  intros Hn. destruct (find_sum_runs pysum pool target Hn) as (Hr & He & _).
  split; [exact Hr|].
  set (n := List.length pool) in *.
  exists (choose (n - 2) (seq 0 n) ++ choose (n - 1) (seq 0 n) ++
          choose n (seq 0 n)).
  split; [|split].
  - rewrite He, !map_app.
    rewrite <- !choose_pick. reflexivity.
  - intros idx. rewrite !in_app_iff, !in_choose_seq, positions_seq.
    unfold near_full_size. fold n. split.
    + intros [H|[H|H]]; destruct H as (Hs & Hb & Hl); repeat split; auto; lia.
    + intros ((Hs & Hb) & Hl).
      assert (List.length idx = n - 2 \/ List.length idx = n - 1 \/
              List.length idx = n) as [H|[H|H]] by lia; tauto.
  - apply StronglySorted_app; [apply sorted_block| |].
    + apply StronglySorted_app; try apply sorted_block.
      intros x y Hx Hy. left.
      rewrite (choose_length _ _ _ Hx), (choose_length _ _ _ Hy).
      lia.
    + intros x y Hx Hy. left. rewrite (choose_length _ _ _ Hx).
      apply in_app_or in Hy.
      destruct Hy as [Hy|Hy]; rewrite (choose_length _ _ _ Hy); lia.
Qed.

Lemma examines_sizes_of_pool_with_two_witness :
  raised (find_sum sum_plain [1; 2; 3]%float 5%float) = None /\
  examines_near_full_sizes sum_plain [1; 2; 3]%float 5%float.
Proof.
  apply (@examines_sizes_of_pool_with_two sum_plain [1; 2; 3]%float 5%float).
  simpl. lia.
Defined.

(** C5 as stated fails on a pool of one value: the first size is -1, which
    [itertools.combinations] refuses, so nothing is examined, although the
    empty selection and the whole pool have sizes N-1 and N. *)
Lemma one_value_pool_examines_nothing :
  ~ examines_near_full_sizes sum_plain [1%float] 1%float.
Proof.
  intros (idxs & Hex & Hin & _).
  rewrite find_sum_small_pool in Hex by (simpl; lia). simpl in Hex.
  destruct idxs as [|i idxs]; [|discriminate].
  apply (Hin []). split.
  - split; constructor.
  - unfold near_full_size. simpl. lia.
Qed.

End SearchClaims.

Section ScriptRun.
Import FindSum Spec.

Lemma script_run_plain :
  let r := find_sum sum_plain all_vals target in
  stdout r = [SearchDone] /\ raised r = None /\
  List.length (examined r) = 352 /\
  sum_plain all_vals = 16761.13%float /\
  forallb (below_target sum_plain) (examined r) = true.
Proof. vm_compute. repeat split. Qed.

Lemma script_run_compensated :
  let r := find_sum sum_compensated all_vals target in
  stdout r = [SearchDone] /\ raised r = None /\
  List.length (examined r) = 352 /\
  sum_compensated all_vals = 16761.13%float /\
  forallb (below_target sum_compensated) (examined r) = true.
Proof. vm_compute. repeat split. Qed.

(** C1 as stated fails: on the pool of the script no line [MATCH: ...] is
    printed, under either summation. *)
Lemma script_reports_no_match :
  ~ (exists s c, In (Match s c) (stdout (find_sum sum_plain all_vals target))) /\
  ~ (exists s c,
       In (Match s c) (stdout (find_sum sum_compensated all_vals target))).
Proof.
  destruct script_run_plain as (Hp & _). destruct script_run_compensated as (Hc & _).
  split; intros (s & c & Hin).
  - rewrite Hp in Hin. destruct Hin as [H|[]]. discriminate.
  - rewrite Hc in Hin. destruct Hin as [H|[]]. discriminate.
Qed.

Lemma silent_run (pysum : list float -> float) :
  (let r := find_sum pysum all_vals target in
   stdout r = [SearchDone] /\ raised r = None /\
   List.length (examined r) = 352 /\
   pysum all_vals = 16761.13%float /\
   forallb (below_target pysum) (examined r) = true) ->
  prints_only_completion_line pysum.
Proof.
  intros Hrun. unfold prints_only_completion_line.
  assert (Hlen : 2 <= List.length all_vals) by (simpl; lia).
  destruct (find_sum_runs pysum all_vals target Hlen) as (_ & Hex & _).
  cbv zeta in *. destruct Hrun as (Ho & Hr & Hl & Hs & Hb).
  repeat split; try assumption.
  - rewrite Hex. apply in_or_app; right. apply in_or_app; right.
    apply choose_whole.
  - intros c Hc. rewrite forallb_forall in Hb. apply (Hb c Hc).
Qed.

(** C1, amended: on the pool of the script (19 deposits, 5 transfers and 2
    dividends, 26 values) with target 16809.66 the search ends without an
    exception and prints the completion line only; every one of the 352
    combinations it examines sums to less than 16809.66 - 0.05, the whole
    pool, which sums to 16761.13, included.  This holds for the
    left-to-right [sum] and for the compensated one. *)
Theorem script_prints_only_completion_line :
  List.length all_vals = 26 /\
  prints_only_completion_line sum_plain /\
  prints_only_completion_line sum_compensated.
Proof.
  split; [reflexivity|].
  split; apply silent_run;
    [apply script_run_plain|apply script_run_compensated].
Qed.

End ScriptRun.

(** ** Python strings *)

Section StringFacts.
Import Py Spec.

Lemma str_eqb_eq (a b : str) : str_eqb a b = true <-> a = b.
Proof.
  unfold str_eqb. destruct (list_eq_dec N.eq_dec a b); split; congruence.
Qed.

Lemma str_eqb_refl (a : str) : str_eqb a a = true.
Proof. apply str_eqb_eq; reflexivity. Qed.

Lemma str_eqb_neq (a b : str) : str_eqb a b = false <-> a <> b.
Proof.
  unfold str_eqb. destruct (list_eq_dec N.eq_dec a b); split; congruence.
Qed.

Lemma mem_In (x : str) (l : list str) : mem x l = true <-> In x l.
Proof.
  unfold mem. rewrite existsb_exists. split.
  - intros (y & Hy & Heq). apply str_eqb_eq in Heq. subst. assumption.
  - intros Hx. exists x. split; [assumption|apply str_eqb_refl].
Qed.

Lemma startswith_prefix (p s : str) :
  startswith p s = true <-> exists post, s = p ++ post.
Proof.
  revert s; induction p as [|a p IH]; intros s; simpl.
  - split; [intros _; exists s; reflexivity|reflexivity].
  - destruct s as [|b s].
    + split; [discriminate|intros (post & H); discriminate].
    + rewrite andb_true_iff, N.eqb_eq, IH. split.
      * intros (-> & post & ->). exists post. reflexivity.
      * intros (post & H). injection H as -> ->. split; [reflexivity|].
        exists post. reflexivity.
Qed.

Lemma contains_unfold (sub s : str) :
  contains sub s =
  startswith sub s ||
  match s with [] => false | _ :: s' => contains sub s' end.
Proof. destruct s; reflexivity. Qed.

Lemma contains_Substring (sub s : str) :
  contains sub s = true <-> Substring sub s.
Proof.
  unfold Substring. split.
  - induction s as [|c s IH]; rewrite contains_unfold, orb_true_iff.
    + intros [H|H]; [|discriminate].
      apply startswith_prefix in H. destruct H as (post & ->).
      exists [], post. reflexivity.
    + intros [H|H].
      * apply startswith_prefix in H. destruct H as (post & ->).
        exists [], post. reflexivity.
      * destruct (IH H) as (pre & post & ->). exists (c :: pre), post.
        reflexivity.
  - intros (pre & post & ->). induction pre as [|c pre IH].
    + rewrite contains_unfold. simpl app.
      replace (startswith sub (sub ++ post)) with true; [reflexivity|].
      symmetry. apply startswith_prefix. exists post. reflexivity.
    + change ((c :: pre) ++ sub ++ post) with (c :: (pre ++ sub ++ post)).
      rewrite contains_unfold, IH. apply orb_true_r.
Qed.

Lemma contains_false (sub s : str) :
  contains sub s = false -> ~ Substring sub s.
Proof.
  intros Hf Hs. apply contains_Substring in Hs. congruence.
Qed.

Lemma lstrip_nil (s : str) :
  lstrip s = [] <-> Forall (fun c => isspace c = true) s.
Proof.
  induction s as [|c s IH]; simpl.
  - split; [constructor|reflexivity].
  - destruct (isspace c) eqn:Hc.
    + rewrite IH. split; [constructor; assumption|].
      intros H; inversion H; assumption.
    + split; [discriminate|]. intros H; inversion H; congruence.
Qed.

Lemma lstrip_spaces (s : str) :
  Forall (fun c => isspace c = true) (lstrip s) <->
  Forall (fun c => isspace c = true) s.
Proof.
  induction s as [|c s IH]; simpl; [tauto|].
  destruct (isspace c) eqn:Hc; [|tauto].
  rewrite IH. split; [constructor; assumption|].
  intros H; inversion H; assumption.
Qed.

Lemma strip_nil (s : str) :
  strip s = [] <-> Forall (fun c => isspace c = true) s.
Proof.
  unfold strip, rstrip. rewrite <- lstrip_spaces. split; intros H.
  - apply (f_equal (@rev N)) in H. rewrite rev_involutive in H. simpl in H.
    apply lstrip_nil, Forall_rev in H. rewrite rev_involutive in H. exact H.
  - apply Forall_rev, lstrip_nil in H. rewrite H. reflexivity.
Qed.

End StringFacts.

(** ** The statement scrapers *)

Section ScraperFacts.
Import Py Soup Statement Spec.

Lemma emit_nil (w : world) : emit w [] = w.
Proof. destruct w; unfold emit; simpl. rewrite app_nil_r. reflexivity. Qed.

Lemma emit_emit (w : world) (a b : list line) :
  emit (emit w a) b = emit w (a ++ b).
Proof. unfold emit; simpl. rewrite app_assoc. reflexivity. Qed.

Lemma hand_over_nil (w : world) : hand_over w [] = w.
Proof. destruct w; unfold hand_over; simpl. rewrite app_nil_r. reflexivity. Qed.

Lemma print_emit (l : line) (w : world) : print l w = emit w [l].
Proof. reflexivity. Qed.

Lemma cash_print_rows (rs : list node) (w : world) :
  ParseCash.print_rows rs w = emit w (row_lines rs).
Proof.
  revert w; induction rs as [|r rs IH]; intros w; simpl.
  - symmetry; apply emit_nil.
  - rewrite IH, print_emit, emit_emit. reflexivity.
Qed.

Lemma cash_visit_table (t : node) (w : world) :
  ParseCash.visit_table t w = Done (emit w (cash_lines t)).
Proof.
  unfold ParseCash.visit_table, cash_lines.
  destruct (contains Transfert_electronique (get_text t) ||
            contains Deboursement (get_text t)); [|rewrite emit_nil; reflexivity].
  destruct (find_all [tr] t) as [|row0 rest]; simpl;
    [rewrite emit_nil; reflexivity|].
  destruct (mem Date (header_texts row0) && mem Description (header_texts row0)
            && mem Montant (header_texts row0));
    [|rewrite emit_nil; reflexivity].
  unfold slice_from. simpl.
  rewrite cash_print_rows, print_emit, emit_emit. reflexivity.
Qed.

Lemma cash_for_each (ts : list node) (w : world) :
  for_each ParseCash.visit_table ts w = Done (emit w (flat_map cash_lines ts)).
Proof.
  revert w; induction ts as [|t ts IH]; intros w; simpl.
  - rewrite emit_nil; reflexivity.
  - rewrite cash_visit_table. simpl. rewrite IH, emit_emit. reflexivity.
Qed.

Lemma ibkr_print_rows (rs : list node) (w : world) :
  ParseIbkr.print_rows rs w =
  emit w (flat_map (fun r => if is_empty (cell_texts r) then []
                             else [Cells (cell_texts r)]) rs).
Proof.
  revert w; induction rs as [|r rs IH]; intros w; simpl.
  - symmetry; apply emit_nil.
  - rewrite IH. destruct (is_empty (cell_texts r)); simpl; [reflexivity|].
    rewrite print_emit, emit_emit. reflexivity.
Qed.

Lemma ibkr_summarize_table (t : node) (w : world) :
  ParseIbkr.summarize_table t w =
  Done (emit (hand_over w [t]) (summary_lines t)).
Proof.
  unfold ParseIbkr.summarize_table, summary_lines.
  fold (hand_over w [t]).
  destruct (find_all [tr] t) as [|row0 rest] eqn:Hrows; simpl is_empty; cbv iota.
  - rewrite emit_nil; reflexivity.
  - simpl nth_error. cbv iota.
    rewrite ibkr_print_rows, print_emit, emit_emit. reflexivity.
Qed.

Lemma ibkr_visit_table (t : node) (w : world) :
  ParseIbkr.visit_table t w =
  if passes_transaction_test t then ParseIbkr.summarize_table t w else Done w.
Proof.
  unfold ParseIbkr.visit_table, passes_transaction_test.
  destruct (contains Symbole (get_text t) &&
            (contains Achat (get_text t) || contains Vente (get_text t) ||
             contains Depots (get_text t) || contains Date (get_text t)));
    simpl; reflexivity.
Qed.

Lemma emit_hand_over (w : world) (out : list line) (ts : list node) :
  hand_over (emit w out) ts = emit (hand_over w ts) out.
Proof. reflexivity. Qed.

Lemma hand_over_hand_over (w : world) (a b : list node) :
  hand_over (hand_over w a) b = hand_over w (a ++ b).
Proof. unfold hand_over; simpl. rewrite app_assoc. reflexivity. Qed.

Lemma ibkr_for_each (ts : list node) (w : world) :
  for_each ParseIbkr.visit_table ts w =
  Done (emit (hand_over w (filter passes_transaction_test ts))
             (flat_map ibkr_lines ts)).
Proof.
  revert w; induction ts as [|t ts IH]; intros w; simpl.
  - rewrite hand_over_nil, emit_nil; reflexivity.
  - rewrite ibkr_visit_table. unfold ibkr_lines at 1.
    destruct (passes_transaction_test t); simpl.
    + rewrite ibkr_summarize_table. simpl. rewrite IH.
      rewrite emit_hand_over, hand_over_hand_over, emit_emit. reflexivity.
    + apply IH.
Qed.

Lemma passes_transaction_test_rule (t : node) :
  passes_transaction_test t = true <-> transaction_rule_on_text t.
Proof.
  unfold passes_transaction_test, transaction_rule_on_text,
    text_has_symbol_and_trade.
  rewrite orb_true_iff, !andb_true_iff, !orb_true_iff, !contains_Substring.
  tauto.
Qed.

End ScraperFacts.

Section ScraperClaims.
Import Py Soup Statement Spec.

(** C2, amended: [parse_ibkr.py] hands a table to [summarize_table] if and
    only if its full text contains the symbol keyword together with one of
    the buy, sell, deposits and date keywords, or its full text contains
    both the date keyword and the amount keyword. *)
Theorem transaction_table_iff_text_rule (t : node) :
  classified_as_transaction t <-> transaction_rule_on_text t.
Proof.
  rewrite <- passes_transaction_test_rule. unfold classified_as_transaction.
  split.
  - intros Hc. specialize (Hc (mkWorld t [] [])).
    rewrite ibkr_visit_table in Hc.
    destruct (passes_transaction_test t); [reflexivity|].
    rewrite ibkr_summarize_table in Hc. discriminate Hc.
  - intros Hp w. rewrite ibkr_visit_table, Hp. reflexivity.
Qed.

(** C2 as stated fails: a table that names the date and the amount keyword
    in a data row only is handed to [summarize_table], although its text
    lacks the symbol keyword and its header row has neither keyword. *)
Lemma body_keywords_classified_against_header_rule :
  ~ (classified_as_transaction keywords_in_body <->
     transaction_rule_of_spec keywords_in_body).
Proof.
  intros [Hto _].
  assert (Hc : classified_as_transaction keywords_in_body).
  { intros w. rewrite ibkr_visit_table. reflexivity. }
  destruct (Hto Hc) as [(Hsym & _)|(Hdate & _)].
  - revert Hsym. apply contains_false. reflexivity.
  - destruct Hdate as (row0 & rest & Hrows & Hin).
    injection Hrows as <- _. vm_compute in Hin.
    destruct Hin as [H|[]]. discriminate H.
Qed.

(** C3: a table of the document whose text contains a cash-movement keyword
    and whose row 0 has cells reading Date, Description and Montant is
    yielded by [parse_cash.py]: the loop body prints the candidate line and
    then, for every later row in order, the list of the stripped texts of
    its [td] cells; and the run over the document prints these lines. *)
Theorem cash_table_is_yielded (t row0 : node) (rest : list node) (w : world) :
  In t (find_all [table] (soup w)) ->
  has_cash_keyword t ->
  find_all [tr] t = row0 :: rest ->
  In Date (map get_text_strip (find_all [th; td] row0)) ->
  In Description (map get_text_strip (find_all [th; td] row0)) ->
  In Montant (map get_text_strip (find_all [th; td] row0)) ->
  let yielded :=
    CandidateCashTable ::
    map (fun r => Cells (map get_text_strip (find_all [td] r))) rest in
  (forall w0,
     ParseCash.visit_table t w0 =
     Done (mkWorld (soup w0) (console w0 ++ yielded) (summarized w0))) /\
  exists before after,
    ParseCash.parse_cash w =
      Done (mkWorld (soup w) (console w ++ before ++ yielded ++ after)
                    (summarized w)).
Proof.
  intros Hin Hkw Hrows Hd Hdesc Hm yielded.
  change (map get_text_strip (find_all [th; td] row0))
    with (header_texts row0) in Hd, Hdesc, Hm.
  assert (Hlines : cash_lines t = yielded).
  { unfold cash_lines.
    replace (contains Transfert_electronique (get_text t) ||
             contains Deboursement (get_text t)) with true.
    - rewrite Hrows. apply mem_In in Hd, Hdesc, Hm.
      rewrite Hd, Hdesc, Hm. reflexivity.
    - symmetry. apply orb_true_iff.
      destruct Hkw as [H|H]; apply contains_Substring in H; auto. }
  split.
  - intros w0. rewrite cash_visit_table, Hlines. reflexivity.
  - unfold ParseCash.parse_cash. rewrite cash_for_each.
    apply in_split in Hin. destruct Hin as (l1 & l2 & ->).
    exists (flat_map cash_lines l1), (flat_map cash_lines l2).
    rewrite flat_map_app. simpl. rewrite Hlines. reflexivity.
Qed.

Lemma cash_table_is_yielded_witness :
  (forall w0,
     ParseCash.visit_table sample_cash_table w0 =
     Done (mkWorld (soup w0)
             (console w0 ++
              [CandidateCashTable;
               Cells [lit "2025-03-01"; Transfert_electronique; lit "500.00"]])
             (summarized w0))) /\
  exists before after,
    ParseCash.parse_cash sample_world =
      Done (mkWorld sample_document
              ([] ++ before ++
               [CandidateCashTable;
                Cells [lit "2025-03-01"; Transfert_electronique; lit "500.00"]]
               ++ after)
              []).
Proof.
  refine (@cash_table_is_yielded sample_cash_table
            (Tag tr [Tag th [NavigableString Date];
                     Tag th [NavigableString Description];
                     Tag th [NavigableString Montant]])
            [Tag tr [Tag td [NavigableString (lit "2025-03-01")];
                     Tag td [NavigableString Transfert_electronique];
                     Tag td [NavigableString (lit " 500.00 ")]]]
            sample_world _ _ _ _ _ _).
  - vm_compute. right. left. reflexivity.
  - left. apply contains_Substring. reflexivity.
  - reflexivity.
  - vm_compute. left. reflexivity.
  - vm_compute. right. left. reflexivity.
  - vm_compute. right. right. left. reflexivity.
Defined.





End ScraperClaims.

(** ** Splitting on a separator *)

Section SplitFacts.
Import Py Spec.
Variable sep : N.

Lemma split_nonempty (s : str) : split sep s <> [].
Proof.
  destruct s as [|c s]; simpl; [discriminate|].
  destruct (N.eqb c sep); [discriminate|].
  destruct (split sep s); discriminate.
Qed.

Lemma split_piece (p : str) : ~ In sep p -> split sep p = [p].
Proof.
  induction p as [|c p IH]; simpl; intros Hp; [reflexivity|].
  destruct (N.eqb_spec c sep) as [->|Hne]; [tauto|].
  rewrite IH by tauto. reflexivity.
Qed.

Lemma split_app (p t : str) :
  ~ In sep p -> split sep (p ++ sep :: t) = p :: split sep t.
Proof.
  induction p as [|c p IH]; simpl; intros Hp.
  - rewrite N.eqb_refl. reflexivity.
  - destruct (N.eqb_spec c sep) as [->|Hne]; [tauto|].
    rewrite IH by tauto. reflexivity.
Qed.

Lemma join_cons (p : str) (q : str) (rest : list str) :
  join sep (p :: q :: rest) = p ++ sep :: join sep (q :: rest).
Proof. reflexivity. Qed.

Lemma split_Segments (s : str) : Segments sep (split sep s) s.
Proof.
  split; [apply split_nonempty|].
  induction s as [|c s IH]; simpl.
  - split; [reflexivity|]. repeat constructor. simpl; tauto.
  - pose proof (split_nonempty s) as Hn. revert IH Hn.
    destruct (split sep s) as [|q rest]; intros (IHj & IHf) Hn;
      [destruct Hn; reflexivity|].
    destruct (N.eqb_spec c sep) as [->|Hne].
    + split.
      * rewrite join_cons, IHj. reflexivity.
      * constructor; [simpl; tauto|assumption].
    + split.
      * destruct rest as [|q' rest].
        -- simpl in *. congruence.
        -- rewrite <- IHj. reflexivity.
      * inversion IHf; subst. constructor; [|assumption].
        simpl. intros [H|H]; [congruence|tauto].
Qed.

Lemma Segments_split (pieces : list str) (s : str) :
  Segments sep pieces s -> pieces = split sep s.
Proof.
  intros (Hne & Hj & Hf). revert s Hj.
  induction pieces as [|p rest IH]; intros s Hj; [congruence|].
  inversion Hf as [|? ? Hp Hrest]; subst.
  destruct rest as [|q rest].
  - simpl. symmetry. apply split_piece. assumption.
  - rewrite join_cons, split_app by assumption.
    f_equal. apply IH; [discriminate|assumption|reflexivity].
Qed.

Lemma split_chars (s p : str) (c : N) :
  In p (split sep s) -> In c p -> In c s.
Proof.
  revert p; induction s as [|c0 s IH]; intros p; simpl.
  - intros [<-|[]] [].
  - destruct (N.eqb c0 sep).
    + intros [<-|Hp] Hc; [destruct Hc|]. right. apply (IH p); assumption.
    + pose proof (split_nonempty s) as Hn. revert IH Hn.
      destruct (split sep s) as [|q rest]; intros IH Hn;
        [destruct Hn; reflexivity|].
      intros [<-|Hp] Hc.
      * destruct Hc as [->|Hc]; [left; reflexivity|].
        right. apply (IH q); [left; reflexivity|assumption].
      * right. apply (IH p); [right; assumption|assumption].
Qed.

End SplitFacts.

(** ** The valuation-ratio proxy *)

Section DictFacts.
Import Py YFinanceServer.
Context {V : Type}.
Implicit Types (d : list (str * V)) (k : str) (v : V).

Lemma dict_get_set_same k v d : dict_get k (dict_set k v d) = Some v.
Proof.
  induction d as [|[k' v'] d IH]; simpl.
  - rewrite str_eqb_refl. reflexivity.
  - destruct (str_eqb k' k) eqn:Hk; simpl; rewrite Hk; [reflexivity|exact IH].
Qed.

Lemma dict_get_set_other k k' v d :
  k' <> k -> dict_get k' (dict_set k v d) = dict_get k' d.
Proof.
  intros Hne. induction d as [|[k0 v0] d IH]; simpl.
  - replace (str_eqb k k') with false; [reflexivity|].
    symmetry. apply str_eqb_neq. congruence.
  - destruct (str_eqb k0 k) eqn:Hk; simpl.
    + apply str_eqb_eq in Hk. subst k0.
      replace (str_eqb k k') with false; [reflexivity|].
      symmetry. apply str_eqb_neq. congruence.
    + rewrite IH. reflexivity.
Qed.

Lemma dict_set_keys k v d :
  map fst (dict_set k v d) =
  if mem k (map fst d) then map fst d else map fst d ++ [k].
Proof.
  induction d as [|[k0 v0] d IH]; simpl; [reflexivity|].
  unfold mem in *. simpl.
  destruct (str_eqb k0 k) eqn:Hk.
  - apply str_eqb_eq in Hk. subst. rewrite str_eqb_refl. reflexivity.
  - simpl. rewrite IH.
    replace (str_eqb k k0) with false.
    + simpl. destruct (existsb (str_eqb k) (map fst d)); reflexivity.
    + symmetry. apply str_eqb_neq. apply str_eqb_neq in Hk. congruence.
Qed.

Lemma dict_set_in_keys k k' v d :
  In k' (map fst (dict_set k v d)) <-> k' = k \/ In k' (map fst d).
Proof.
  rewrite dict_set_keys. destruct (mem k (map fst d)) eqn:Hm.
  - apply mem_In in Hm. split; [auto|]. intros [->|H]; assumption.
  - rewrite in_app_iff. simpl. split; intros H; intuition congruence.
Qed.

Lemma dict_set_NoDup k v d :
  NoDup (map fst d) -> NoDup (map fst (dict_set k v d)).
Proof.
  intros Hnd. rewrite dict_set_keys. destruct (mem k (map fst d)) eqn:Hm.
  - assumption.
  - apply NoDup_app; [assumption|repeat constructor; simpl; tauto|].
    intros x Hx [<-|[]]. apply mem_In in Hx. congruence.
Qed.

End DictFacts.

Section ProxyFacts.
Import Py YFinanceServer Spec.
Variable yf_info : nat -> str -> result pyval.

Abbreviation run_loop := (fold_left (pe_step yf_info)).

Lemma pe_step_calls (st : pe_state) (t : str) :
  pe_calls (pe_step yf_info st t) = pe_calls st ++ [InfoCall t].
Proof. unfold pe_step. destruct (pe_entry _); reflexivity. Qed.

Lemma pe_step_result (st : pe_state) (t : str) :
  exists v, pe_result (pe_step yf_info st t) = dict_set t v (pe_result st).
Proof. unfold pe_step. destruct (pe_entry _); eexists; reflexivity. Qed.

Lemma loop_calls (ts : list str) (st : pe_state) :
  pe_calls (run_loop ts st) = pe_calls st ++ map InfoCall ts.
Proof.
  revert st; induction ts as [|t ts IH]; intros st; simpl.
  - rewrite app_nil_r; reflexivity.
  - rewrite IH, pe_step_calls, <- app_assoc. reflexivity.
Qed.

Lemma loop_keys (ts : list str) (st : pe_state) (k : str) :
  In k (map fst (pe_result (run_loop ts st))) <->
  In k (map fst (pe_result st)) \/ In k ts.
Proof.
  revert st; induction ts as [|t ts IH]; intros st; simpl; [tauto|].
  rewrite IH. destruct (pe_step_result st t) as (v & ->).
  rewrite dict_set_in_keys. intuition congruence.
Qed.

Lemma loop_NoDup (ts : list str) (st : pe_state) :
  NoDup (map fst (pe_result st)) ->
  NoDup (map fst (pe_result (run_loop ts st))).
Proof.
  revert st; induction ts as [|t ts IH]; intros st Hnd; simpl; [assumption|].
  apply IH. destruct (pe_step_result st t) as (v & ->).
  apply dict_set_NoDup; assumption.
Qed.

Lemma loop_fresh_keys (ts : list str) (st : pe_state) :
  NoDup ts -> (forall t, In t ts -> ~ In t (map fst (pe_result st))) ->
  map fst (pe_result (run_loop ts st)) = map fst (pe_result st) ++ ts.
Proof.
  revert st; induction ts as [|t ts IH]; intros st Hnd Hfresh; simpl.
  - rewrite app_nil_r; reflexivity.
  - inversion Hnd as [|? ? Hnotin Hnd']; subst.
    assert (Hkeys : map fst (pe_result (pe_step yf_info st t)) =
                    map fst (pe_result st) ++ [t]).
    { destruct (pe_step_result st t) as (v & ->). rewrite dict_set_keys.
      destruct (mem t (map fst (pe_result st))) eqn:Hm; [|reflexivity].
      apply mem_In in Hm. exfalso. apply (Hfresh t); simpl; auto. }
    rewrite IH, Hkeys, <- app_assoc; [reflexivity|assumption|].
    intros t' Ht'. rewrite Hkeys, in_app_iff. simpl.
    intros [H|[<-|[]]]; [apply (Hfresh t'); simpl; auto|auto].
Qed.

Lemma loop_get_other (ts : list str) (st : pe_state) (t : str) :
  ~ In t ts ->
  dict_get t (pe_result (run_loop ts st)) = dict_get t (pe_result st).
Proof.
  revert st; induction ts as [|t' ts IH]; intros st Hnotin; simpl;
    [reflexivity|].
  rewrite IH by (simpl in Hnotin; tauto).
  destruct (pe_step_result st t') as (v & ->).
  apply dict_get_set_other. simpl in Hnotin. intuition congruence.
Qed.

Lemma loop_last_failure
  (before after : list str) (t : str) (e : exn) (st : pe_state) :
  ~ In t after ->
  pe_entry (yf_info (List.length (pe_calls st) + List.length before) t) = inl e ->
  dict_get t (pe_result (run_loop (before ++ t :: after) st)) = Some null_entry.
Proof.
  intros Hlast Hraise. rewrite fold_left_app. simpl.
  rewrite loop_get_other by assumption.
  unfold pe_step at 1. rewrite loop_calls, length_app, length_map, Hraise.
  simpl. apply dict_get_set_same.
Qed.

Variable yahoo_search : str -> result pyval.

Lemma route_pe (req : request) :
  path req = lit "/pe" ->
  do_GET yf_info yahoo_search (inr req) = inr (_handle_pe yf_info req).
Proof. intros Hp. unfold do_GET. simpl. rewrite Hp. reflexivity. Qed.

Lemma route_search (req : request) :
  path req = lit "/search" ->
  do_GET yf_info yahoo_search (inr req) = inr (_handle_search yahoo_search req).
Proof. intros Hp. unfold do_GET. simpl. rewrite Hp. reflexivity. Qed.

Lemma tickers_of_segments (segments : list str) (raw : str) :
  Segments 44 segments raw -> tickers_of raw = trim_and_drop_empty segments.
Proof.
  intros Hseg. apply Segments_split in Hseg. subst segments.
  unfold tickers_of, trim_and_drop_empty.
  induction (split 44 raw) as [|p ps IH]; simpl; [reflexivity|].
  destruct (str_eqb (strip p) []); simpl; rewrite IH; reflexivity.
Qed.

Lemma tickers_of_blank (raw : str) :
  Forall (fun c => c = 44%N \/ isspace c = true) raw -> tickers_of raw = [].
Proof.
  intros Hraw. unfold tickers_of.
  destruct (split_Segments 44 raw) as (_ & _ & Hpieces).
  assert (Hblank : forall p, In p (split 44 raw) -> strip p = []).
  { intros p Hp. apply strip_nil. apply Forall_forall. intros c Hc.
    rewrite Forall_forall in Hraw, Hpieces.
    destruct (Hraw c (split_chars _ _ _ _ Hp Hc)) as [->|Hsp]; [|assumption].
    destruct (Hpieces p Hp Hc). }
  induction (split 44 raw) as [|p ps IH]; simpl; [reflexivity|].
  rewrite (Hblank p) by (left; reflexivity). simpl.
  apply IH.
  - inversion Hpieces; assumption.
  - intros q Hq. apply Hblank. right. assumption.
Qed.

End ProxyFacts.

Section ProxyClaims.
Import Py YFinanceServer Spec Props.
Variable yf_info : nat -> str -> result pyval.
Variable yahoo_search : str -> result pyval.

(** C7, amended: on [GET /pe], when the [try] block of a ticker raises (the
    fetch itself, or reading the fields of what it gave) at the last place
    the ticker is listed, the response has status 200 and its body holds,
    under that ticker, the entry whose four fields are [None]. *)
Theorem failed_fetch_gives_null_entry
  (req : request) (before after : list str) (t : str) (e : exn) :
  path req = lit "/pe" ->
  tickers_of (first_value (query req) (lit "tickers")) = before ++ t :: after ->
  ~ In t after ->
  pe_entry (yf_info (List.length before) t) = inl e ->
  exists x,
    do_GET yf_info yahoo_search (inr req) = inr x /\
    status x = 200%Z /\
    exists d,
      body x = PyDict d /\
      dict_get t d =
        Some (PyDict [(trailingPE, PyNone); (forwardPE, PyNone);
                      (trailingEps, PyNone); (forwardEps, PyNone)]).
Proof.
  intros Hpath Hts Hlast Hraise. rewrite route_pe by assumption.
  eexists. split; [reflexivity|].
  unfold _handle_pe. rewrite Hts.
  destruct (before ++ t :: after) as [|t0 ts0] eqn:Hlist.
  - destruct before; discriminate.
  - rewrite <- Hlist. simpl. split; [reflexivity|].
    eexists. split; [reflexivity|].
    unfold pe_loop. apply loop_last_failure with (e := e); assumption.
Qed.

(** C8: on [GET /search], when [q] is missing, empty or whitespace only, the
    response has status 400, its body is the object with the one field
    "error", the data provider is not called, and only the request line is
    written to the error stream. *)
Theorem search_without_query_is_rejected (req : request) :
  path req = lit "/search" ->
  blank_parameter (lit "q") (query req) ->
  do_GET yf_info yahoo_search (inr req) =
    inr (mkExchange 400
           (PyDict [(lit "error", PyStr (lit "missing q param"))])
           [] [RequestLogged (requestline req)]).
Proof.
  intros Hpath Hblank. rewrite route_search by assumption.
  unfold _handle_search, first_value. unfold blank_parameter in Hblank.
  destruct (dict_get (lit "q") (query req)) as [[v others]|].
  - apply strip_nil in Hblank. rewrite Hblank. reflexivity.
  - reflexivity.
Qed.

(** C10, amended: on [GET /pe], the tickers are the comma-separated segments
    of the raw parameter, trimmed, without those that are empty after
    trimming.  When none is left (as when the parameter is missing, empty,
    or made of commas and whitespace only) the response is the 400 error and
    nothing is fetched; otherwise the status is 200, one fetch is made per
    surviving segment in order, and the body is an object with exactly one
    entry per distinct surviving segment: its keys are the tickers, each
    once (in the order of the list when no ticker is repeated). *)
Theorem pe_tickers_and_entries (req : request) (segments : list str) :
  path req = lit "/pe" ->
  Segments 44 segments (first_value (query req) (lit "tickers")) ->
  let tickers := trim_and_drop_empty segments in
  exists x,
    do_GET yf_info yahoo_search (inr req) = inr x /\
    (Forall (fun c => c = 44%N \/ isspace c = true)
            (first_value (query req) (lit "tickers")) -> tickers = []) /\
    (tickers = [] ->
     x = mkExchange 400
           (PyDict [(lit "error", PyStr (lit "missing tickers param"))]) []
           [RequestLogged (requestline req)]) /\
    (tickers <> [] ->
     status x = 200%Z /\ upstream x = map InfoCall tickers /\
     exists d,
       body x = PyDict d /\ NoDup (map fst d) /\
       (forall t, In t (map fst d) <-> In t tickers) /\
       (NoDup tickers -> map fst d = tickers)).
Proof.
  intros Hpath Hseg. cbv zeta.
  rewrite route_pe by assumption. eexists. split; [reflexivity|].
  unfold _handle_pe.
  split.
  { intros Hblank. rewrite <- (tickers_of_segments Hseg).
    apply tickers_of_blank. assumption. }
  rewrite (tickers_of_segments Hseg).
  generalize (trim_and_drop_empty segments) as tickers. intros tickers.
  split.
  - intros ->. reflexivity.
  - intros Hne. destruct tickers as [|t0 ts0]; [congruence|].
    cbv beta iota zeta. cbn [status body upstream]. unfold pe_loop.
    generalize (t0 :: ts0) as ts. intros ts.
    split; [reflexivity|]. split; [apply loop_calls|].
    eexists. split; [reflexivity|]. split; [|split].
    + apply loop_NoDup. constructor.
    + intros t. rewrite loop_keys. simpl. tauto.
    + intros Hnd. rewrite loop_fresh_keys; [reflexivity|assumption|].
      intros t _ [].
Qed.

End ProxyClaims.

Section ProxyWitnesses.
Import Py YFinanceServer Spec Props.

Lemma failed_fetch_gives_null_entry_witness :
  exists x,
    do_GET (fun _ => provider_down) provider_down
           (inr (pe_request "BADSYMBOL")) = inr x /\
    status x = 200%Z /\
    exists d,
      body x = PyDict d /\
      dict_get (lit "BADSYMBOL") d =
        Some (PyDict [(trailingPE, PyNone); (forwardPE, PyNone);
                      (trailingEps, PyNone); (forwardEps, PyNone)]).
Proof.
  apply (@failed_fetch_gives_null_entry
           (fun _ => provider_down) provider_down
           (pe_request "BADSYMBOL") [] [] (lit "BADSYMBOL")
           (Exception (lit "HTTP Error 404: Not Found"))).
  - reflexivity.
  - vm_compute. reflexivity.
  - simpl. tauto.
  - reflexivity.
Defined.

(** C7 as stated fails: with the ticker listed twice, a first fetch that
    raises and a second that answers, line 100 stores over the all-None
    entry of line 108, so a fetch of the ticker raised and yet its entry
    is not the all-None one. *)
Lemma repeated_ticker_keeps_its_last_fetch :
  ~ any_failed_fetch_gives_null_entry recovering_provider provider_down
      (pe_request "A,A").
Proof.
  intros Hclaim.
  destruct (Hclaim 0 (lit "A") (Exception (lit "HTTP Error 404: Not Found"))
              eq_refl eq_refl) as (x & d & Hx & _ & Hbody & Hget).
  vm_compute in Hx. injection Hx as <-. simpl in Hbody.
  injection Hbody as <-. vm_compute in Hget. discriminate Hget.
Qed.

Lemma search_without_query_is_rejected_witness :
  do_GET (fun _ => provider_down) provider_down (inr (search_request "  ")) =
    inr (mkExchange 400
           (PyDict [(lit "error", PyStr (lit "missing q param"))])
           [] [RequestLogged (requestline (search_request "  "))]).
Proof.
  apply (@search_without_query_is_rejected
           (fun _ => provider_down) provider_down (search_request "  ")).
  - reflexivity.
  - vm_compute. repeat constructor.
Defined.

Lemma pe_tickers_and_entries_witness :
  let tickers := trim_and_drop_empty [lit "AAPL"; lit " "; lit " MC.PA"] in
  exists x,
    do_GET (fun _ => provider_down) provider_down
           (inr (pe_request "AAPL, , MC.PA")) = inr x /\
    (Forall (fun c => c = 44%N \/ isspace c = true)
            (first_value (query (pe_request "AAPL, , MC.PA")) (lit "tickers")) ->
     tickers = []) /\
    (tickers = [] ->
     x = mkExchange 400
           (PyDict [(lit "error", PyStr (lit "missing tickers param"))]) []
           [RequestLogged (requestline (pe_request "AAPL, , MC.PA"))]) /\
    (tickers <> [] ->
     status x = 200%Z /\ upstream x = map InfoCall tickers /\
     exists d,
       body x = PyDict d /\ NoDup (map fst d) /\
       (forall t, In t (map fst d) <-> In t tickers) /\
       (NoDup tickers -> map fst d = tickers)).
Proof.
  apply (@pe_tickers_and_entries
           (fun _ => provider_down) provider_down
           (pe_request "AAPL, , MC.PA")
           [lit "AAPL"; lit " "; lit " MC.PA"]).
  - reflexivity.
  - split; [discriminate|]. split; [reflexivity|].
    repeat constructor; vm_compute; intuition discriminate.
Defined.

(** C10 as stated fails: "A, A" has two segments that survive trimming,
    and the body has one entry, since both store under the same key. *)
Lemma repeated_segment_shares_one_entry :
  ~ one_entry_per_surviving_segment (fun _ => provider_down) provider_down
      (pe_request "A, A").
Proof.
  intros Hclaim.
  destruct (Hclaim [lit "A"; lit " A"]) as (x & d & Hx & Hbody & Hlen).
  - split; [discriminate|]. split; [reflexivity|].
    repeat constructor; vm_compute; intuition discriminate.
  - discriminate.
  - vm_compute in Hx. injection Hx as <-. simpl in Hbody.
    injection Hbody as <-. vm_compute in Hlen. discriminate Hlen.
Qed.

End ProxyWitnesses.

(** ** Further properties of the reconciliation search *)

Section SearchMore.
Import FindSum Spec Props.

Lemma inner_loop_filter
  (pysum : list float -> float) (target : float) (cs : list (list float)) :
  inner_loop pysum target cs =
  map (match_line pysum) (filter (within_tolerance pysum target) cs).
Proof.
  induction cs as [|c cs IH]; simpl; [reflexivity|].
  destruct (within_tolerance pysum target c); simpl; rewrite IH; reflexivity.
Qed.

Lemma outer_loop_output
  (pysum : list float -> float) (pool : list float) (target : float)
  (rs : list Z) :
  let r := outer_loop pysum pool target rs in
  stdout r =
    map (match_line pysum) (filter (within_tolerance pysum target) (examined r))
    ++ closing_lines (raised r).
Proof.
  induction rs as [|k rs IH]; cbn [outer_loop]; [reflexivity|].
  destruct (itertools_combinations pool k) as [e|cs]; cbn [stdout examined raised];
    [reflexivity|].
  cbv zeta in IH. rewrite IH, inner_loop_filter, filter_app, map_app, app_assoc.
  reflexivity.
Qed.

(** X1: whatever the pool, the lines printed are exactly one MATCH line for
    each examined combination that passes the test of line 21, in the order
    they are examined, followed by the completion line when the run was not
    left by an exception; no passing combination is skipped. *)
Theorem output_is_the_passing_combinations
  (pysum : list float -> float) (pool : list float) (target : float) :
  let r := find_sum pysum pool target in
  stdout r =
    map (match_line pysum) (filter (within_tolerance pysum target) (examined r))
    ++ closing_lines (raised r) /\
  forall c, In c (examined r) -> within_tolerance pysum target c = true ->
            In (Match (pysum c) c) (stdout r).
Proof.
  cbv zeta. unfold find_sum.
  pose proof (outer_loop_output pysum pool target
                (py_range (Z.of_nat (List.length pool) - 2)
                          (Z.of_nat (List.length pool) + 1))) as Hout.
  cbv zeta in Hout. split; [exact Hout|].
  intros c Hc Hw. rewrite Hout. apply in_or_app. left.
  apply (in_map (match_line pysum)). apply filter_In. split; assumption.
Qed.

(** X2: the completion line is printed exactly when the pool has at least
    two values: then the run ends normally and the completion line is the
    last line; with fewer values the run prints nothing at all and ends
    with the ValueError of [itertools.combinations]. *)
Theorem completion_line_needs_two_values
  (pysum : list float -> float) (pool : list float) (target : float) :
  let r := find_sum pysum pool target in
  (raised r = None <-> 2 <= List.length pool) /\
  (In SearchDone (stdout r) <-> 2 <= List.length pool) /\
  (2 <= List.length pool -> exists matches, stdout r = matches ++ [SearchDone]) /\
  (List.length pool < 2 -> stdout r = [] /\ raised r = Some ValueError).
Proof.
  cbv zeta. destruct (Nat.le_gt_cases 2 (List.length pool)) as [Hge|Hlt].
  - destruct (find_sum_runs pysum pool target Hge) as (Hr & _ & Ho).
    repeat split; try (intros; assumption); try lia.
    + intros _. rewrite Ho. repeat (apply in_or_app; right). left; reflexivity.
    + intros _. rewrite Ho. rewrite !app_assoc. eexists. reflexivity.
  - rewrite (find_sum_small_pool pysum pool target Hlt). simpl.
    repeat split; try (intros; lia); try discriminate; try tauto.
Qed.

Lemma choose_all_count {A : Type} (l : list A) :
  List.length (choose (List.length l) l) = 1.
Proof.
  induction l as [|x xs IH]; simpl; [reflexivity|].
  rewrite length_app, length_map, IH, choose_short by lia. reflexivity.
Qed.

Lemma choose_all_but_one_count {A : Type} (l : list A) (n : nat) :
  List.length l = S n -> List.length (choose n l) = S n.
Proof.
  revert n; induction l as [|x xs IH]; intros n Hl; [discriminate|].
  simpl in Hl. injection Hl as Hl. destruct n as [|m]; [reflexivity|].
  simpl. rewrite length_app, length_map, (IH m Hl).
  rewrite <- Hl at 2. rewrite choose_all_count. lia.
Qed.

Lemma choose_all_but_two_count {A : Type} (l : list A) (n : nat) :
  List.length l = S (S n) -> 2 * List.length (choose n l) = S (S n) * S n.
Proof.
  revert n; induction l as [|x xs IH]; intros n Hl; [discriminate|].
  simpl in Hl. injection Hl as Hl. destruct n as [|m]; [reflexivity|].
  simpl choose. rewrite length_app, length_map.
  pose proof (IH m Hl) as H2. pose proof (choose_all_but_one_count xs Hl) as H1.
  rewrite H1. nia.
Qed.

(** X3: on a pool of N >= 2 values the search examines N(N-1)/2 + N + 1
    combinations: N(N-1)/2 of size N-2, then N of size N-1, then the pool
    itself. *)
Theorem number_of_examined_combinations
  (pysum : list float -> float) (pool : list float) (target : float) :
  2 <= List.length pool ->
  let n := List.length pool in
  List.length (examined (find_sum pysum pool target)) = n * (n - 1) / 2 + n + 1.
Proof.
  intros Hn. cbv zeta.
  destruct (find_sum_runs pysum pool target Hn) as (_ & He & _). rewrite He.
  remember (List.length pool) as n eqn:Hlen.
  destruct n as [|[|m]]; try lia.
  rewrite !length_app.
  replace (S (S m) - 2) with m by lia. replace (S (S m) - 1) with (S m) by lia.
  rewrite (choose_all_but_one_count pool (eq_sym Hlen)).
  replace (choose (S (S m)) pool) with (choose (List.length pool) pool)
    by (rewrite <- Hlen; reflexivity).
  rewrite choose_all_count.
  pose proof (choose_all_but_two_count pool (eq_sym Hlen)) as H2.
  replace (S (S m) * S m) with (List.length (choose m pool) * 2) by lia.
  rewrite Nat.div_mul by discriminate. lia.
Qed.

Lemma number_of_examined_combinations_witness :
  List.length (examined (find_sum sum_plain [1; 2; 3; 4]%float 9%float)) =
  4 * (4 - 1) / 2 + 4 + 1.
Proof.
  apply (@number_of_examined_combinations sum_plain [1; 2; 3; 4]%float 9%float).
  simpl. lia.
Defined.

Lemma choose_Subsequence {A : Type} (r : nat) (l c : list A) :
  In c (choose r l) -> Subsequence c l.
Proof.
  revert r c; induction l as [|x xs IH]; intros [|r] c; simpl.
  - intros [<-|[]]. constructor.
  - intros [].
  - intros [<-|[]]. constructor. apply (IH 0). rewrite choose_zero. left; reflexivity.
  - rewrite in_app_iff, in_map_iff. intros [(c' & <- & Hc')|Hc].
    + apply sub_keep. apply (IH r). assumption.
    + apply sub_skip. apply (IH (S r)). assumption.
Qed.

(** X4: a reported subset is the pool with at most two values left out, the
    others in the order of the pool. *)
Theorem reported_subset_is_nearly_the_pool
  (pysum : list float -> float) (pool : list float) (target s : float)
  (c : list float) :
  In (Match s c) (stdout (find_sum pysum pool target)) ->
  Subsequence c pool /\
  List.length pool - 2 <= List.length c <= List.length pool.
Proof.
  intros Hin. destruct (Nat.le_gt_cases 2 (List.length pool)) as [Hge|Hlt].
  - apply in_outer_loop in Hin. destruct Hin as (_ & _ & Hex).
    fold (find_sum pysum pool target) in Hex.
    destruct (find_sum_runs pysum pool target Hge) as (_ & He & _).
    rewrite He in Hex. rewrite !in_app_iff in Hex.
    destruct Hex as [H|[H|H]];
      (split; [eapply choose_Subsequence; exact H|]);
      rewrite (choose_length _ _ _ H); lia.
  - rewrite (find_sum_small_pool pysum pool target Hlt) in Hin. destruct Hin.
Qed.

Lemma reported_subset_is_nearly_the_pool_witness :
  Subsequence [2; 3]%float [1; 2; 3]%float /\
  List.length [1; 2; 3]%float - 2 <= List.length [2; 3]%float
    <= List.length [1; 2; 3]%float.
Proof.
  apply (@reported_subset_is_nearly_the_pool sum_plain [1; 2; 3]%float
           5%float 5%float).
  vm_compute. left. reflexivity.
Defined.

End SearchMore.

(** ** Further properties of the statement scrapers *)

Section StripFacts.
Import Py Props.

Lemma lstrip_head (s : str) :
  lstrip s <> [] -> isspace (hd 0%N (lstrip s)) = false.
Proof.
  induction s as [|c s IH]; simpl; [congruence|].
  destruct (isspace c) eqn:Hc; [exact IH|]. intros _. exact Hc.
Qed.

Lemma lstrip_last (s : str) :
  lstrip s <> [] -> last (lstrip s) 0%N = last s 0%N.
Proof.
  induction s as [|c s IH]; [reflexivity|].
  cbn [lstrip]. destruct (isspace c); [|reflexivity].
  intros Hne. rewrite (IH Hne).
  destruct s as [|c' s']; [destruct Hne; reflexivity|reflexivity].
Qed.

Lemma last_rev (s : str) : last (rev s) 0%N = hd 0%N s.
Proof. destruct s as [|c s]; [reflexivity|]. simpl. apply last_last. Qed.

Lemma hd_rev (s : str) : hd 0%N (rev s) = last s 0%N.
Proof. rewrite <- (rev_involutive s) at 2. symmetry. apply last_rev. Qed.

Lemma strip_trimmed (s : str) : trimmed (strip s).
Proof.
  unfold trimmed, strip, rstrip. intros Hne.
  assert (Hv : lstrip (rev (lstrip s)) <> []).
  { intros Hv. rewrite Hv in Hne. apply Hne. reflexivity. }
  assert (Ht : lstrip s <> []).
  { intros Ht. rewrite Ht in Hv. apply Hv. reflexivity. }
  split.
  - rewrite hd_rev, (lstrip_last _ Hv), last_rev. apply lstrip_head. exact Ht.
  - rewrite last_rev. apply lstrip_head. exact Hv.
Qed.

Lemma last_app_nonempty (a b : str) :
  b <> [] -> last (a ++ b) 0%N = last b 0%N.
Proof.
  intros Hb. induction a as [|c a IH]; [reflexivity|].
  simpl. destruct (a ++ b) eqn:Hab; [|exact IH].
  apply app_eq_nil in Hab. destruct Hab as (_ & Hb'). congruence.
Qed.

Lemma concat_trimmed (l : list str) :
  Forall (fun s => s <> [] /\ trimmed s) l -> trimmed (concat l).
Proof.
  induction 1 as [|x l (Hx & Htx) Hl IH]; simpl.
  - intros H; congruence.
  - intros _. destruct (Htx Hx) as (Hhd & Hlast). split.
    + destruct x; [congruence|exact Hhd].
    + destruct (concat l) as [|c rest] eqn:Hc.
      * rewrite app_nil_r. exact Hlast.
      * rewrite last_app_nonempty by discriminate.
        apply IH. discriminate.
Qed.

End StripFacts.

Section ScraperMore.
Import Py Soup Statement Spec Props.

Lemma get_text_strip_trimmed (n : node) : trimmed (get_text_strip n).
Proof.
  unfold get_text_strip. apply concat_trimmed.
  apply Forall_forall. intros s Hs. apply filter_In in Hs.
  destruct Hs as (Hin & Hne). apply in_map_iff in Hin.
  destruct Hin as (s0 & <- & _). split.
  - intros Hnil. rewrite Hnil in Hne. discriminate.
  - apply strip_trimmed.
Qed.

(** X9: every header text and every cell text the scrapers build with
    [get_text(strip=True)] is empty or begins and ends with a character that
    is not whitespace. *)
Theorem header_and_cell_texts_are_trimmed (r : node) :
  Forall trimmed (header_texts r) /\ Forall trimmed (cell_texts r).
Proof.
  unfold header_texts, cell_texts.
  split; apply Forall_map, Forall_forall; intros n _;
    apply get_text_strip_trimmed.
Qed.

Lemma cash_lines_cases (t : node) :
  (has_cash_keyword t /\ header_has t Date /\ header_has t Description /\
   header_has t Montant /\
   exists row0 rest, find_all [tr] t = row0 :: rest /\
                     cash_lines t = CandidateCashTable :: row_lines rest) \/
  (~ (has_cash_keyword t /\ header_has t Date /\ header_has t Description /\
      header_has t Montant) /\
   cash_lines t = []).
Proof.
  unfold cash_lines.
  destruct (contains Transfert_electronique (get_text t) ||
            contains Deboursement (get_text t)) eqn:Hkw.
  - destruct (find_all [tr] t) as [|row0 rest] eqn:Hrows.
    + right. split; [|reflexivity].
      intros (_ & (r0 & rs & Hr & _) & _). rewrite Hrows in Hr. discriminate.
    + destruct (mem Date (header_texts row0) &&
                mem Description (header_texts row0) &&
                mem Montant (header_texts row0)) eqn:Hmem.
      * left. apply andb_true_iff in Hmem. destruct Hmem as (Hmem & Hm).
        apply andb_true_iff in Hmem. destruct Hmem as (Hd & Hdesc).
        apply mem_In in Hd, Hdesc, Hm.
        split; [|split; [|split; [|split]]].
        -- apply orb_true_iff in Hkw. unfold has_cash_keyword.
           rewrite <- !contains_Substring. exact Hkw.
        -- exists row0, rest. rewrite Hrows. auto.
        -- exists row0, rest. rewrite Hrows. auto.
        -- exists row0, rest. rewrite Hrows. auto.
        -- exists row0, rest. auto.
      * right. split; [|reflexivity].
        intros (_ & (r0 & rs0 & Hr0 & Hd) & (r1 & rs1 & Hr1 & Hdesc) &
                (r2 & rs2 & Hr2 & Hm)).
        rewrite Hrows in Hr0, Hr1, Hr2.
        injection Hr0 as <- _. injection Hr1 as <- _. injection Hr2 as <- _.
        apply mem_In in Hd, Hdesc, Hm. rewrite Hd, Hdesc, Hm in Hmem.
        discriminate.
  - right. split; [|reflexivity].
    intros (Hk & _). unfold has_cash_keyword in Hk.
    rewrite <- !contains_Substring in Hk. apply orb_true_iff in Hk. congruence.
Qed.

(** X5: the loop body of [parse_cash.py] prints the candidate line for a
    table exactly when its text has a cash-movement keyword and row 0 has
    cells reading Date, Description and Montant; for every other table it
    prints nothing. *)
Theorem candidate_line_iff_keyword_and_headers (t : node) (w : world) :
  ((has_cash_keyword t /\ header_has t Date /\ header_has t Description /\
    header_has t Montant) <->
   exists out,
     ParseCash.visit_table t w = Done (emit w (CandidateCashTable :: out))) /\
  (~ (has_cash_keyword t /\ header_has t Date /\ header_has t Description /\
      header_has t Montant) ->
   ParseCash.visit_table t w = Done w).
Proof.
  rewrite cash_visit_table.
  destruct (cash_lines_cases t)
    as [(Hk & Hd & Hdesc & Hm & row0 & rest & _ & Hlines)|(Hno & Hlines)];
    rewrite Hlines.
  - split; [|tauto]. split; [|tauto]. intros _. eexists. reflexivity.
  - rewrite emit_nil. split; [|reflexivity]. split; [tauto|].
    intros (out & Hout). exfalso. injection Hout as Hout.
    apply (f_equal console) in Hout. simpl in Hout.
    apply (f_equal (@List.length line)) in Hout.
    rewrite length_app in Hout. simpl in Hout. lia.
Qed.

Lemma ibkr_lines_no_error (t : node) (e : exn) : ~ In (ErrorText e) (ibkr_lines t).
Proof.
  unfold ibkr_lines, summary_lines.
  destruct (passes_transaction_test t); [|intros []].
  destruct (find_all [tr] t) as [|row0 rest]; [intros []|].
  intros [H|H]; [discriminate|].
  apply in_flat_map in H. destruct H as (r & _ & Hr).
  destruct (is_empty (cell_texts r)); [destruct Hr|].
  destruct Hr as [Hr|[]]. discriminate.
Qed.

(** X6: reading [rows[0]] never fails: the loop body of [parse_cash.py],
    [summarize_table] and the loop body of [parse_ibkr.py] all run to their
    end on every table, and a run of [parse_ibkr.py] prints no exception
    text. *)
Theorem row_zero_is_never_read_from_no_rows (t : node) (w : world) :
  (exists w', ParseCash.visit_table t w = Done w') /\
  (exists w', ParseIbkr.summarize_table t w = Done w') /\
  (exists w', ParseIbkr.visit_table t w = Done w') /\
  (forall e, In (ErrorText e) (console (ParseIbkr.parse_ibkr w)) ->
             In (ErrorText e) (console w)).
Proof.
  split; [|split; [|split]].
  - rewrite cash_visit_table. eexists. reflexivity.
  - rewrite ibkr_summarize_table. eexists. reflexivity.
  - rewrite ibkr_visit_table. destruct (passes_transaction_test t).
    + rewrite ibkr_summarize_table. eexists. reflexivity.
    + eexists. reflexivity.
  - intros e. unfold ParseIbkr.parse_ibkr. rewrite ibkr_for_each. simpl.
    rewrite in_app_iff. intros [H|H]; [assumption|].
    apply in_flat_map in H. destruct H as (t' & _ & Ht').
    destruct (ibkr_lines_no_error _ _ Ht').
Qed.

Lemma summary_rows (rows : list node) :
  flat_map (fun r => if is_empty (cell_texts r) then []
                     else [Cells (cell_texts r)]) rows =
  map Cells
      (filter (fun cells => match cells with [] => false | _ :: _ => true end)
              (map (fun r => map get_text_strip (find_all [td] r)) rows)).
Proof.
  induction rows as [|r rows IH]; simpl; [reflexivity|]. rewrite IH.
  change (map get_text_strip (find_all [td] r)) with (cell_texts r).
  destruct (cell_texts r); reflexivity.
Qed.

(** X7: for a table with rows, [summarize_table] prints the header line of
    row 0 and then, in the order of the rows, the cell lists of rows 1 to
    3, those with no [td] cell left out: at most four lines; for a table
    without rows it prints nothing. *)
Theorem summarize_table_prints_header_and_three_rows (t : node) (w : world) :
  exists out,
    ParseIbkr.summarize_table t w =
      Done (mkWorld (soup w) (console w ++ out) (summarized w ++ [t])) /\
    List.length out <= 4 /\
    match find_all [tr] t with
    | [] => out = []
    | row0 :: rest =>
        out =
          TableHeaders (map get_text_strip (find_all [th; td] row0)) ::
          map Cells
              (filter (fun cells =>
                         match cells with [] => false | _ :: _ => true end)
                      (map (fun r => map get_text_strip (find_all [td] r))
                           (firstn 3 rest)))
    end.
Proof.
  rewrite ibkr_summarize_table. exists (summary_lines t).
  split; [reflexivity|].
  unfold summary_lines. destruct (find_all [tr] t) as [|row0 rest];
    [split; [simpl; lia|reflexivity]|].
  unfold slice. simpl skipn. change (4 - 1) with 3. rewrite summary_rows.
  split; [|reflexivity].
  cbn [Datatypes.length]. rewrite length_map.
  pose proof (filter_length_le
                (fun cells : list str =>
                   match cells with [] => false | _ :: _ => true end)
                (map (fun r => map get_text_strip (find_all [td] r))
                     (firstn 3 rest))) as Hf.
  rewrite length_map, length_firstn in Hf. lia.
Qed.

(** X8: a run of [parse_ibkr.py] hands to [summarize_table] exactly the
    tables of the document that pass the text test, in document order and
    once for each place a table has in the document, also when a table
    passes both branches of the test. *)
Theorem tables_are_summarized_once_in_order (w : world) :
  summarized (ParseIbkr.parse_ibkr w) =
    summarized w ++
    filter passes_transaction_test (find_all [table] (soup w)) /\
  forall t, passes_transaction_test t = true <-> transaction_rule_on_text t.
Proof.
  split.
  - unfold ParseIbkr.parse_ibkr. rewrite ibkr_for_each. reflexivity.
  - apply passes_transaction_test_rule.
Qed.

Lemma node_induction (P : node -> Prop) :
  (forall s, P (NavigableString s)) ->
  (forall s, P (Special s)) ->
  (forall name children, Forall P children -> P (Tag name children)) ->
  forall n, P n.
Proof.
  intros Hstr Hsp Htag. fix IH 1. intros [s|s|name children].
  - apply Hstr.
  - apply Hsp.
  - apply Htag. induction children as [|c cs IHcs]; constructor.
    + apply IH.
    + exact IHcs.
Qed.

Lemma descendants_trans (n m k : node) :
  In m (descendants n) -> In k (descendants m) -> In k (descendants n).
Proof.
  revert m k. induction n as [s|s|name children IH] using node_induction;
    intros m k; simpl; try tauto.
  rewrite !in_flat_map. intros (c & Hc & Hm) Hk. exists c. split; [assumption|].
  destruct Hm as [<-|Hm].
  - right. assumption.
  - right. rewrite Forall_forall in IH. apply (IH c Hc m k); assumption.
Qed.

Lemma find_all_nested (names names' : list str) (n m k : node) :
  In m (find_all names n) -> In k (find_all names' m) ->
  In k (find_all names' n).
Proof.
  unfold find_all. rewrite !filter_In. intros (Hm & _) (Hk & Hname).
  split; [|assumption]. eapply descendants_trans; eassumption.
Qed.

(** X20: a table nested inside another table of the document is itself one
    of the tables the loops visit, and each of its rows is also among the
    rows [find_all('tr')] gives for the outer table. *)
Theorem nested_table_rows_count_twice (w : world) (outer inner r : node) :
  In outer (find_all [table] (soup w)) ->
  In inner (find_all [table] outer) ->
  In r (find_all [tr] inner) ->
  In inner (find_all [table] (soup w)) /\
  In r (find_all [tr] outer).
Proof.
  intros Houter Hinner Hr. split; eapply find_all_nested; eassumption.
Qed.

Lemma nested_table_rows_count_twice_witness :
  In nested_inner (find_all [table] (soup nested_world)) /\
  In (Tag tr [Tag td [NavigableString (lit "x")]]) (find_all [tr] nested_outer).
Proof.
  apply (@nested_table_rows_count_twice nested_world nested_outer nested_inner).
  - vm_compute. left. reflexivity.
  - vm_compute. left. reflexivity.
  - vm_compute. left. reflexivity.
Defined.

End ScraperMore.

(** ** Further properties of the proxy *)

Section ProxyMore.
Import Py YFinanceServer Spec Props.
Variable yf_info : nat -> str -> result pyval.

Lemma pe_loop_calls (ts : list str) :
  pe_calls (pe_loop yf_info ts) = map InfoCall ts.
Proof. unfold pe_loop. rewrite loop_calls. reflexivity. Qed.

Lemma handle_pe_cases (self : request) :
  let tickers := tickers_of (first_value (query self) (lit "tickers")) in
  (tickers = [] /\
   _handle_pe yf_info self =
     mkExchange 400 (error_body "missing tickers param") []
                [RequestLogged (requestline self)]) \/
  (tickers <> [] /\
   _handle_pe yf_info self =
     mkExchange 200 (PyDict (pe_result (pe_loop yf_info tickers)))
                (map InfoCall tickers)
                (pe_log (pe_loop yf_info tickers) ++
                 [RequestLogged (requestline self)])).
Proof.
  cbv zeta. unfold _handle_pe, _set_headers.
  destruct (tickers_of (first_value (query self) (lit "tickers")))
    as [|t ts] eqn:Hts.
  - left. split; reflexivity.
  - right. split; [discriminate|]. cbv beta iota zeta.
    rewrite pe_loop_calls. reflexivity.
Qed.

Variable yahoo_search : str -> result pyval.

Lemma handle_search_cases (self : request) :
  let q := strip (first_value (query self) (lit "q")) in
  (q = [] /\
   _handle_search yahoo_search self =
     mkExchange 400 (error_body "missing q param") []
                [RequestLogged (requestline self)]) \/
  (q <> [] /\
   ((exists results,
       (data <- yahoo_search q ;; search_results data) = inr results /\
       _handle_search yahoo_search self =
         mkExchange 200 (PyList results) [SearchCall q]
                    [RequestLogged (requestline self)]) \/
    (exists e,
       (data <- yahoo_search q ;; search_results data) = inl e /\
       _handle_search yahoo_search self =
         mkExchange 500 (PyDict [(lit "error", PyStr (str_of_exn e))])
                    [SearchCall q]
                    [SearchError e; RequestLogged (requestline self)]))).
Proof.
  cbv zeta. unfold _handle_search, _set_headers.
  destruct (str_eqb (strip (first_value (query self) (lit "q"))) []) eqn:Hq.
  - left. apply str_eqb_eq in Hq. split; [assumption|reflexivity].
  - right. apply str_eqb_neq in Hq. split; [assumption|].
    destruct (data <- yahoo_search (strip (first_value (query self) (lit "q"))) ;;
              search_results data) as [e|results].
    + right. exists e. split; reflexivity.
    + left. exists results. split; reflexivity.
Qed.

Lemma do_GET_cases (req : request) :
  exists x,
    do_GET yf_info yahoo_search (inr req) = inr x /\
    ((path req = lit "/pe" /\ x = _handle_pe yf_info req) \/
     (path req = lit "/search" /\ x = _handle_search yahoo_search req) \/
     (path req = lit "/health" /\
      x = mkExchange 200 (PyDict [(lit "status", PyStr (lit "ok"))]) []
            [RequestLogged (requestline req)]) \/
     (unknown_path (path req) /\
      x = mkExchange 404 (error_body "not found") []
            [RequestLogged (requestline req)])).
Proof.
  unfold do_GET, unknown_path. simpl. eexists. split; [reflexivity|].
  destruct (str_eqb (path req) (lit "/pe")) eqn:Hpe.
  { left. apply str_eqb_eq in Hpe. auto. }
  destruct (str_eqb (path req) (lit "/search")) eqn:Hse.
  { right. left. apply str_eqb_eq in Hse. auto. }
  destruct (str_eqb (path req) (lit "/health")) eqn:Hh.
  { right. right. left. apply str_eqb_eq in Hh. auto. }
  right. right. right. apply str_eqb_neq in Hpe, Hse, Hh. auto.
Qed.

(** X10: when [urlparse] refuses the target of the request, its exception
    leaves [do_GET] and no status is sent.  Otherwise, whatever the data
    provider does, the status sent is 200, 400, 404 or 500; it is 404
    exactly for a path other than /pe, /search and /health, and 500 only on
    /search. *)
Theorem status_is_one_of_four (parsed : result request) :
  match parsed with
  | inl e => do_GET yf_info yahoo_search parsed = inl e
  | inr req =>
      exists x,
        do_GET yf_info yahoo_search parsed = inr x /\
        (status x = 200%Z \/ status x = 400%Z \/ status x = 404%Z \/
         status x = 500%Z) /\
        (status x = 404%Z <-> unknown_path (path req)) /\
        (status x = 500%Z -> path req = lit "/search")
  end.
Proof.
  destruct parsed as [e|req]; [reflexivity|].
  destruct (do_GET_cases req)
    as (x & Hx & [(Hp & Hxe)|[(Hp & Hxe)|[(Hp & Hxe)|(Hp & Hxe)]]]);
    exists x; (split; [exact Hx|]); subst x.
  - assert (Hknown : ~ unknown_path (path req))
      by (intros (Ha & _); congruence).
    destruct (handle_pe_cases req) as [(_ & ->)|(_ & ->)]; cbn [status];
      (split; [auto|]); (split; [split|]);
      try (intros E; discriminate E); intros E; contradiction.
  - assert (Hknown : ~ unknown_path (path req))
      by (intros (_ & Hb & _); congruence).
    destruct (handle_search_cases req)
      as [(_ & ->)|(_ & [(r & _ & ->)|(e & _ & ->)])]; cbn [status];
      (split; [auto 6|]); (split; [split|]);
      try (intros E; discriminate E); try (intros E; contradiction).
    intros _. assumption.
  - assert (Hknown : ~ unknown_path (path req))
      by (intros (_ & _ & Hc); congruence).
    cbn [status]. split; [auto|]. split; [split|];
      try (intros E; discriminate E). intros E; contradiction.
  - cbn [status]. split; [auto 6|]. split; [split|].
    + intros _. assumption.
    + reflexivity.
    + intros E; discriminate E.
Qed.

(** X11: a request answered with 400 or 404, and a request for /health,
    makes no call to the data provider; every other request makes at least
    one.  A request answered with 400 or 404 writes to the error stream
    only its request line. *)
Theorem rejected_requests_call_nothing (req : request) :
  exists x,
    do_GET yf_info yahoo_search (inr req) = inr x /\
    (upstream x = [] <->
     status x = 400%Z \/ status x = 404%Z \/ path req = lit "/health") /\
    (status x = 400%Z \/ status x = 404%Z ->
     stderr x = [RequestLogged (requestline req)]).
Proof.
  destruct (do_GET_cases req)
    as (x & Hx & [(Hp & Hxe)|[(Hp & Hxe)|[(Hp & Hxe)|(Hp & Hxe)]]]);
    exists x; (split; [exact Hx|]); subst x.
  - destruct (handle_pe_cases req) as [(_ & ->)|(Hne & ->)];
      cbn [status upstream stderr].
    + split; [split; auto|auto].
    + split; [split|].
      * intros E. apply map_eq_nil in E. cbv zeta in Hne. contradiction.
      * intros [E|[E|E]]; try discriminate E. rewrite Hp in E. discriminate E.
      * intros [E|E]; discriminate E.
  - destruct (handle_search_cases req)
      as [(_ & ->)|(_ & [(r & _ & ->)|(e & _ & ->)])];
      cbn [status upstream stderr].
    + split; [split; auto|auto].
    + split; [split|].
      * intros E; discriminate E.
      * intros [E|[E|E]]; try discriminate E. rewrite Hp in E. discriminate E.
      * intros [E|E]; discriminate E.
    + split; [split|].
      * intros E; discriminate E.
      * intros [E|[E|E]]; try discriminate E. rewrite Hp in E. discriminate E.
      * intros [E|E]; discriminate E.
  - cbn [status upstream stderr]. split; [split; auto|auto].
  - cbn [status upstream stderr]. split; [split; auto|auto].
Qed.

Lemma blank_iff_nothing_left (qs : query_string) (k : str) :
  blank_parameter k qs <-> strip (first_value qs k) = [].
Proof.
  unfold blank_parameter, first_value.
  destruct (dict_get k qs) as [[v others]|].
  - symmetry. apply strip_nil.
  - split; [reflexivity|auto].
Qed.

(** X12: on /search the answer is 400 exactly when [q] is missing, empty or
    whitespace only; otherwise the data provider is called once, with the
    first value of [q] stripped of the whitespace around it, and the status
    is 200 or 500. *)
Theorem search_calls_once_with_stripped_query (req : request) :
  path req = lit "/search" ->
  exists x,
    do_GET yf_info yahoo_search (inr req) = inr x /\
    (status x = 400%Z <-> blank_parameter (lit "q") (query req)) /\
    (~ blank_parameter (lit "q") (query req) ->
     upstream x = [SearchCall (strip (first_value (query req) (lit "q")))] /\
     (status x = 200%Z \/ status x = 500%Z)).
Proof.
  intros Hpath. rewrite route_search by assumption.
  eexists. split; [reflexivity|].
  rewrite blank_iff_nothing_left.
  destruct (handle_search_cases req)
    as [(Hq & ->)|(Hq & [(r & _ & ->)|(e & _ & ->)])];
    cbv zeta in Hq; cbn [status upstream].
  - split; [split; auto|]. intros Hn. contradiction.
  - split; [split|]; [intros E; discriminate E|intros E; contradiction|auto].
  - split; [split|]; [intros E; discriminate E|intros E; contradiction|auto].
Qed.

Lemma quote_entry_of_dict (d : list (str * pyval)) :
  exists entry, quote_entry (PyDict d) = inr entry /\ search_entry entry.
Proof.
  unfold quote_entry, py_get, bind.
  destruct (truthy _); eexists; (split; [reflexivity|]);
    unfold search_entry; do 4 eexists; reflexivity.
Qed.

Lemma quote_entry_needs_dict (quote entry : pyval) :
  quote_entry quote = inr entry -> is_dict quote.
Proof.
  destruct quote; try discriminate. intros _. eexists. reflexivity.
Qed.

Lemma quote_entries_of_dicts (quotes : list pyval) :
  Forall is_dict quotes ->
  exists results,
    quote_entries quotes = inr results /\
    List.length results = List.length quotes /\ Forall search_entry results.
Proof.
  induction 1 as [|quote quotes (d & ->) Hall (results & Hr & Hl & Hs)].
  - exists []. repeat split; constructor.
  - destruct (quote_entry_of_dict d) as (entry & He & Hse).
    exists (entry :: results). cbn [quote_entries]. rewrite He, Hr. simpl.
    repeat split; [congruence|constructor; assumption].
Qed.

Lemma quote_entries_need_dicts (quotes results : list pyval) :
  quote_entries quotes = inr results -> Forall is_dict quotes.
Proof.
  revert results; induction quotes as [|quote quotes IH]; intros results;
    [constructor|].
  cbn [quote_entries]. destruct (quote_entry quote) as [e|entry] eqn:He;
    [discriminate|].
  simpl. destruct (quote_entries quotes) as [e|rs] eqn:Hr; [discriminate|].
  intros _. constructor; [eapply quote_entry_needs_dict; eassumption|].
  eapply IH. reflexivity.
Qed.

Lemma search_results_usable (data : pyval) (results : list pyval) :
  search_results data = inr results <->
  exists quotes, usable_answer data quotes /\ quote_entries quotes = inr results.
Proof.
  unfold search_results, usable_answer. split.
  - destruct data; try discriminate. simpl.
    destruct (py_iter _) as [e|quotes] eqn:Hi; [discriminate|]. simpl.
    intros Hr. exists quotes. split; [|assumption].
    eexists. split; [reflexivity|]. split; [exact Hi|].
    eapply quote_entries_need_dicts; eassumption.
  - intros (quotes & (d & -> & Hi & _) & Hr). simpl. rewrite Hi. simpl.
    assumption.
Qed.

(** X13: on /search with a usable answer (an object whose "quotes" are
    objects) the status is 200, the error stream gets the request line and
    nothing else, and the body is a list with one entry per quote, each
    with the fields symbol, name, exchange and type, in this order. *)
Theorem search_answer_has_one_entry_per_quote
  (req : request) (data : pyval) (quotes : list pyval) :
  path req = lit "/search" ->
  ~ blank_parameter (lit "q") (query req) ->
  yahoo_search (strip (first_value (query req) (lit "q"))) = inr data ->
  usable_answer data quotes ->
  exists x,
    do_GET yf_info yahoo_search (inr req) = inr x /\
    status x = 200%Z /\ stderr x = [RequestLogged (requestline req)] /\
    exists results,
      body x = PyList results /\
      List.length results = List.length quotes /\
      Forall search_entry results.
Proof.
  intros Hpath Hq Hdata Husable. rewrite route_search by assumption.
  eexists. split; [reflexivity|].
  rewrite blank_iff_nothing_left in Hq.
  destruct Husable as (d & -> & Hi & Hdicts).
  destruct (quote_entries_of_dicts Hdicts) as (results & Hr & Hl & Hs).
  unfold _handle_search.
  replace (str_eqb (strip (first_value (query req) (lit "q"))) []) with false
    by (symmetry; apply str_eqb_neq; assumption).
  rewrite Hdata. unfold search_results. simpl. rewrite Hi. simpl. rewrite Hr.
  simpl. repeat split. exists results. repeat split; assumption.
Qed.

(** X14: on /search with a query, the status is 200 exactly when the data
    provider returns a usable answer; otherwise the status is 500, the body
    is the object whose one field "error" holds the text of the exception,
    and that exception is logged once, before the request line. *)
Theorem search_failure_is_a_500_with_the_message (req : request) :
  path req = lit "/search" ->
  ~ blank_parameter (lit "q") (query req) ->
  let q := strip (first_value (query req) (lit "q")) in
  exists x,
    do_GET yf_info yahoo_search (inr req) = inr x /\
    (status x = 200%Z <->
     exists data quotes,
       yahoo_search q = inr data /\ usable_answer data quotes) /\
    (status x <> 200%Z ->
     exists e,
       x = mkExchange 500 (PyDict [(lit "error", PyStr (str_of_exn e))])
             [SearchCall q]
             [SearchError e; RequestLogged (requestline req)] /\
       (yahoo_search q = inl e \/
        exists data, yahoo_search q = inr data /\ search_results data = inl e)).
Proof.
  intros Hpath Hq. cbv zeta. rewrite route_search by assumption.
  eexists. split; [reflexivity|].
  rewrite blank_iff_nothing_left in Hq.
  destruct (handle_search_cases req)
    as [(Hq0 & _)|(_ & [(r & Hr & ->)|(e & He & ->)])];
    [cbv zeta in Hq0; contradiction| |]; cbn [status].
  - split; [|intros E; congruence]. split; [intros _|reflexivity].
    destruct (yahoo_search _) as [e|data]; [discriminate|]. simpl in Hr.
    apply search_results_usable in Hr. destruct Hr as (quotes & Hu & _).
    exists data, quotes. split; [reflexivity|assumption].
  - split.
    + split; [intros E; discriminate E|].
      intros (data & quotes & Hd & Hu). rewrite Hd in He. simpl in He.
      destruct Hu as (d & -> & Hi & Hdicts).
      destruct (quote_entries_of_dicts Hdicts) as (results & Hres & _).
      unfold search_results in He. simpl in He. rewrite Hi in He. simpl in He.
      congruence.
    + intros _. exists e. split; [reflexivity|].
      destruct (yahoo_search _) as [e'|data]; simpl in He.
      * left. congruence.
      * right. exists data. split; [reflexivity|assumption].
Qed.

Lemma number_or_None_null (v : pyval) : number_or_null (number_or_None v).
Proof. destruct v; exact I. Qed.

Lemma entry_of_ratio (fetched : result pyval) : ratio_entry (entry_of fetched).
Proof.
  unfold entry_of, ratio_entry.
  destruct (pe_entry fetched) as [e|entry] eqn:He.
  - do 4 eexists. split; [reflexivity|]. repeat split.
  - destruct fetched as [e|info]; [discriminate|].
    destruct info; try discriminate. simpl in He. injection He as <-.
    do 4 eexists. split; [reflexivity|].
    repeat split; apply number_or_None_null.
Qed.

Lemma pe_step_entry (st : pe_state) (t : str) :
  pe_result (pe_step yf_info st t) =
  dict_set t (entry_of (yf_info (List.length (pe_calls st)) t)) (pe_result st).
Proof. unfold pe_step, entry_of. destruct (pe_entry _); reflexivity. Qed.

Lemma dict_set_values {V : Type} (P : V -> Prop) (k : str) (v : V)
  (d : list (str * V)) :
  P v -> Forall (fun kv => P (snd kv)) d ->
  Forall (fun kv => P (snd kv)) (dict_set k v d).
Proof.
  intros Hv. induction 1 as [|[k' v'] d Hkv Hd IH]; simpl.
  - repeat constructor. exact Hv.
  - destruct (str_eqb k' k); constructor; auto.
Qed.

Lemma loop_values (ts : list str) (st : pe_state) :
  Forall (fun kv => ratio_entry (snd kv)) (pe_result st) ->
  Forall (fun kv => ratio_entry (snd kv))
         (pe_result (fold_left (pe_step yf_info) ts st)).
Proof.
  revert st; induction ts as [|t ts IH]; intros st Hst; simpl; [assumption|].
  apply IH. rewrite pe_step_entry.
  apply dict_set_values; [apply entry_of_ratio|assumption].
Qed.

(** X15: every entry of a 200 answer of /pe holds the four fields
    trailingPE, forwardPE, trailingEps and forwardEps, in this order, each
    [None] or a number: no string, list or object of the data provider
    reaches the caller. *)
Theorem pe_entries_hold_numbers_or_null (req : request) :
  path req = lit "/pe" ->
  exists x,
    do_GET yf_info yahoo_search (inr req) = inr x /\
    (status x = 200%Z ->
     exists d, body x = PyDict d /\ Forall (fun kv => ratio_entry (snd kv)) d).
Proof.
  intros Hpath. rewrite route_pe by assumption.
  eexists. split; [reflexivity|].
  destruct (handle_pe_cases req) as [(_ & ->)|(_ & ->)]; cbn [status body].
  - discriminate.
  - intros _. eexists. split; [reflexivity|].
    unfold pe_loop. apply loop_values. constructor.
Qed.

Lemma loop_last_entry
  (before after : list str) (t : str) (st : pe_state) :
  ~ In t after ->
  dict_get t (pe_result (fold_left (pe_step yf_info) (before ++ t :: after) st)) =
  Some (entry_of (yf_info (List.length (pe_calls st) + List.length before) t)).
Proof.
  intros Hlast. rewrite fold_left_app. simpl.
  rewrite loop_get_other by assumption.
  rewrite pe_step_entry, loop_calls, length_app, length_map.
  apply dict_get_set_same.
Qed.

(** X16: on /pe the entry of a ticker is what the [try] block makes of the
    fetch at the last place the ticker is listed: the fetches of the other
    tickers, failed or not, have no part in it. *)
Theorem pe_entry_comes_from_own_fetch
  (req : request) (before after : list str) (t : str) :
  path req = lit "/pe" ->
  tickers_of (first_value (query req) (lit "tickers")) = before ++ t :: after ->
  ~ In t after ->
  exists x d,
    do_GET yf_info yahoo_search (inr req) = inr x /\
    body x = PyDict d /\
    dict_get t d = Some (entry_of (yf_info (List.length before) t)).
Proof.
  intros Hpath Hts Hlast. rewrite route_pe by assumption.
  destruct (handle_pe_cases req) as [(Hnil & _)|(_ & Hx)]; cbv zeta in *.
  - rewrite Hts in Hnil. destruct before; discriminate.
  - rewrite Hx. do 2 eexists. split; [reflexivity|]. cbn [body].
    split; [reflexivity|].
    rewrite Hts. unfold pe_loop. apply loop_last_entry. assumption.
Qed.

Lemma loop_log (ts : list str) (st : pe_state) :
  pe_log (fold_left (pe_step yf_info) ts st) =
  pe_log st ++ failures yf_info (List.length (pe_calls st)) ts.
Proof.
  revert st; induction ts as [|t ts IH]; intros st; simpl.
  - rewrite app_nil_r; reflexivity.
  - rewrite IH, pe_step_calls, length_app. simpl.
    replace (List.length (pe_calls st) + 1) with (S (List.length (pe_calls st)))
      by lia.
    unfold pe_step. destruct (pe_entry _); simpl.
    + rewrite <- app_assoc. reflexivity.
    + reflexivity.
Qed.

Lemma failures_none (n : nat) (ts : list str) :
  failures yf_info n ts = [] <->
  forall i t, nth_error ts i = Some t ->
              exists entry, pe_entry (yf_info (n + i) t) = inr entry.
Proof.
  revert n; induction ts as [|t0 ts IH]; intros n; simpl.
  - split; [|reflexivity]. intros _ [|i] t H; discriminate H.
  - split.
    + intros H. apply app_eq_nil in H. destruct H as (H0 & Hrest).
      intros [|i] t Ht; simpl in Ht.
      * injection Ht as <-. rewrite Nat.add_0_r.
        destruct (pe_entry (yf_info n t0)); [discriminate|]. eexists; reflexivity.
      * replace (n + S i) with (S n + i) by lia.
        apply (proj1 (IH (S n)) Hrest). assumption.
    + intros H. destruct (H 0 t0 eq_refl) as (entry & He).
      rewrite Nat.add_0_r in He. rewrite He. simpl. apply IH.
      intros i t Ht. replace (S n + i) with (n + S i) by lia.
      apply H. assumption.
Qed.

Lemma failures_length (n : nat) (ts : list str) :
  List.length (failures yf_info n ts) <= List.length ts.
Proof.
  revert n; induction ts as [|t ts IH]; intros n; simpl; [lia|].
  rewrite length_app. specialize (IH (S n)).
  destruct (pe_entry _); simpl; lia.
Qed.

(** X18: on /pe the error stream gets one line for each fetch whose [try]
    block raises, in the order of the fetches, then the request line, and
    nothing else: it holds the request line alone exactly when no fetch
    fails, and never more than one line per ticker besides it. *)
Theorem pe_logs_one_line_per_failed_fetch (req : request) :
  path req = lit "/pe" ->
  let tickers := tickers_of (first_value (query req) (lit "tickers")) in
  exists x,
    do_GET yf_info yahoo_search (inr req) = inr x /\
    stderr x = failures yf_info 0 tickers ++ [RequestLogged (requestline req)] /\
    List.length (stderr x) <= List.length tickers + 1 /\
    (stderr x = [RequestLogged (requestline req)] <->
     forall i t, nth_error tickers i = Some t ->
                 exists entry, pe_entry (yf_info i t) = inr entry).
Proof.
  intros Hpath. cbv zeta. rewrite route_pe by assumption.
  eexists. split; [reflexivity|].
  assert (Hlog : stderr (_handle_pe yf_info req) =
                 failures yf_info 0
                   (tickers_of (first_value (query req) (lit "tickers")))
                 ++ [RequestLogged (requestline req)]).
  { destruct (handle_pe_cases req) as [(Hnil & ->)|(_ & ->)]; cbv zeta in *.
    - rewrite Hnil. reflexivity.
    - cbn [stderr]. unfold pe_loop. rewrite loop_log. reflexivity. }
  rewrite Hlog. split; [reflexivity|]. split.
  - rewrite length_app. simpl.
    pose proof (failures_length 0
                  (tickers_of (first_value (query req) (lit "tickers")))).
    lia.
  - rewrite <- (failures_none 0). split.
    + intros E. apply (app_inv_tail [RequestLogged (requestline req)]).
      exact E.
    + intros ->. reflexivity.
Qed.

Lemma loop_key_order (ts : list str) (st : pe_state) :
  map fst (pe_result (fold_left (pe_step yf_info) ts st)) =
  map fst (pe_result st) ++ first_occurrences (map fst (pe_result st)) ts.
Proof.
  revert st; induction ts as [|t ts IH]; intros st; simpl.
  - rewrite app_nil_r; reflexivity.
  - rewrite IH, pe_step_entry, dict_set_keys.
    destruct (mem t (map fst (pe_result st))); [reflexivity|].
    rewrite <- app_assoc. reflexivity.
Qed.

(** X17: the body of a 200 answer of /pe has one key for each distinct
    ticker, in the order the tickers first appear in the request; a ticker
    listed again does not move or repeat its key. *)
Theorem pe_keys_follow_first_appearance (req : request) :
  path req = lit "/pe" ->
  exists x,
    do_GET yf_info yahoo_search (inr req) = inr x /\
    (status x = 200%Z ->
     exists d,
       body x = PyDict d /\
       map fst d =
         first_occurrences []
           (tickers_of (first_value (query req) (lit "tickers")))).
Proof.
  intros Hpath. rewrite route_pe by assumption.
  eexists. split; [reflexivity|].
  destruct (handle_pe_cases req) as [(_ & ->)|(_ & ->)]; cbn [status body].
  - discriminate.
  - intros _. eexists. split; [reflexivity|].
    unfold pe_loop. rewrite loop_key_order. reflexivity.
Qed.

Lemma lstrip_incl (s : str) (c : N) : In c (lstrip s) -> In c s.
Proof.
  induction s as [|c0 s IH]; simpl; [auto|].
  destruct (isspace c0); [intros H; right; apply IH; assumption|auto].
Qed.

Lemma strip_incl (s : str) (c : N) : In c (strip s) -> In c s.
Proof.
  unfold strip, rstrip. intros H.
  apply in_rev, lstrip_incl in H. apply in_rev in H.
  apply lstrip_incl. assumption.
Qed.

Lemma tickers_of_clean (raw t : str) :
  In t (tickers_of raw) -> t <> [] /\ trimmed t /\ ~ In 44%N t.
Proof.
  unfold tickers_of. rewrite in_map_iff. intros (p & <- & Hp).
  apply filter_In in Hp. destruct Hp as (Hp & Hne).
  split; [|split].
  - intros Hnil. rewrite Hnil in Hne. discriminate.
  - apply strip_trimmed.
  - intros Hc. apply strip_incl in Hc.
    destruct (split_Segments 44 raw) as (_ & _ & Hpieces).
    rewrite Forall_forall in Hpieces. apply (Hpieces p Hp Hc).
Qed.

(** X19: every ticker the proxy fetches on /pe is a non-empty string with no
    whitespace at either end and no comma in it. *)
Theorem fetched_tickers_are_clean (req : request) (x : exchange) (t : str) :
  path req = lit "/pe" ->
  do_GET yf_info yahoo_search (inr req) = inr x ->
  In (InfoCall t) (upstream x) ->
  t <> [] /\ trimmed t /\ ~ In 44%N t.
Proof.
  intros Hpath. rewrite route_pe by assumption. intros Hx.
  injection Hx as <-.
  destruct (handle_pe_cases req) as [(_ & ->)|(_ & ->)]; cbn [upstream].
  - intros [].
  - rewrite in_map_iff. intros (t' & Heq & Hin). injection Heq as ->.
    eapply tickers_of_clean. eassumption.
Qed.

End ProxyMore.

Section ProxyMoreWitnesses.
Import Py YFinanceServer Spec Props.

Lemma search_calls_once_with_stripped_query_witness :
  exists x,
    do_GET (fun _ => provider_down) (provider_up sample_answer)
           (inr (search_request " LVMH ")) = inr x /\
    (status x = 400%Z <->
     blank_parameter (lit "q") (query (search_request " LVMH "))) /\
    (~ blank_parameter (lit "q") (query (search_request " LVMH ")) ->
     upstream x =
       [SearchCall (strip (first_value (query (search_request " LVMH "))
                                        (lit "q")))] /\
     (status x = 200%Z \/ status x = 500%Z)).
Proof.
  apply (@search_calls_once_with_stripped_query
           (fun _ => provider_down) (provider_up sample_answer)
           (search_request " LVMH ")).
  reflexivity.
Defined.

Lemma search_answer_has_one_entry_per_quote_witness :
  exists x,
    do_GET (fun _ => provider_down) (provider_up sample_answer)
           (inr (search_request " LVMH ")) = inr x /\
    status x = 200%Z /\
    stderr x = [RequestLogged (requestline (search_request " LVMH "))] /\
    exists results,
      body x = PyList results /\
      List.length results = List.length [sample_quote] /\
      Forall search_entry results.
Proof.
  apply (@search_answer_has_one_entry_per_quote
           (fun _ => provider_down) (provider_up sample_answer)
           (search_request " LVMH ") sample_answer [sample_quote]).
  - reflexivity.
  - rewrite blank_iff_nothing_left. vm_compute. discriminate.
  - reflexivity.
  - eexists. split; [reflexivity|]. split; [reflexivity|].
    repeat constructor. eexists. reflexivity.
Defined.

Lemma search_failure_is_a_500_with_the_message_witness :
  let q := strip (first_value (query (search_request "LVMH")) (lit "q")) in
  exists x,
    do_GET (fun _ => provider_down) provider_down
           (inr (search_request "LVMH")) = inr x /\
    (status x = 200%Z <->
     exists data quotes,
       provider_down q = inr data /\ usable_answer data quotes) /\
    (status x <> 200%Z ->
     exists e,
       x = mkExchange 500 (PyDict [(lit "error", PyStr (str_of_exn e))])
             [SearchCall q]
             [SearchError e;
              RequestLogged (requestline (search_request "LVMH"))] /\
       (provider_down q = inl e \/
        exists data, provider_down q = inr data /\ search_results data = inl e)).
Proof.
  apply (@search_failure_is_a_500_with_the_message
           (fun _ => provider_down) provider_down (search_request "LVMH")).
  - reflexivity.
  - rewrite blank_iff_nothing_left. vm_compute. discriminate.
Defined.

Lemma pe_entries_hold_numbers_or_null_witness :
  exists x,
    do_GET (fun _ => provider_up sample_info) provider_down
           (inr (pe_request "MC.PA")) = inr x /\
    (status x = 200%Z ->
     exists d, body x = PyDict d /\ Forall (fun kv => ratio_entry (snd kv)) d).
Proof.
  apply (@pe_entries_hold_numbers_or_null
           (fun _ => provider_up sample_info) provider_down (pe_request "MC.PA")).
  reflexivity.
Defined.

Lemma pe_entry_comes_from_own_fetch_witness :
  exists x d,
    do_GET (fun _ => provider_up sample_info) provider_down
           (inr (pe_request "AAPL,MC.PA")) = inr x /\
    body x = PyDict d /\
    dict_get (lit "MC.PA") d =
      Some (entry_of (provider_up sample_info (lit "MC.PA"))).
Proof.
  apply (@pe_entry_comes_from_own_fetch
           (fun _ => provider_up sample_info) provider_down
           (pe_request "AAPL,MC.PA") [lit "AAPL"] [] (lit "MC.PA")).
  - reflexivity.
  - reflexivity.
  - simpl. tauto.
Defined.

Lemma pe_logs_one_line_per_failed_fetch_witness :
  let tickers :=
    tickers_of (first_value (query (pe_request "AAPL,MC.PA")) (lit "tickers")) in
  exists x,
    do_GET (fun _ => provider_down) provider_down
           (inr (pe_request "AAPL,MC.PA")) = inr x /\
    stderr x =
      failures (fun _ => provider_down) 0 tickers ++
      [RequestLogged (requestline (pe_request "AAPL,MC.PA"))] /\
    List.length (stderr x) <= List.length tickers + 1 /\
    (stderr x = [RequestLogged (requestline (pe_request "AAPL,MC.PA"))] <->
     forall i t, nth_error tickers i = Some t ->
                 exists entry, pe_entry (provider_down t) = inr entry).
Proof.
  apply (@pe_logs_one_line_per_failed_fetch
           (fun _ => provider_down) provider_down (pe_request "AAPL,MC.PA")).
  reflexivity.
Defined.

Lemma pe_keys_follow_first_appearance_witness :
  exists x,
    do_GET (fun _ => provider_up sample_info) provider_down
           (inr (pe_request "MC.PA,AAPL,MC.PA")) = inr x /\
    (status x = 200%Z ->
     exists d,
       body x = PyDict d /\
       map fst d =
         first_occurrences []
           (tickers_of (first_value (query (pe_request "MC.PA,AAPL,MC.PA"))
                                    (lit "tickers")))).
Proof.
  apply (@pe_keys_follow_first_appearance
           (fun _ => provider_up sample_info) provider_down
           (pe_request "MC.PA,AAPL,MC.PA")).
  reflexivity.
Defined.

Lemma fetched_tickers_are_clean_witness :
  lit "MC.PA" <> [] /\ trimmed (lit "MC.PA") /\ ~ In 44%N (lit "MC.PA").
Proof.
  eapply (@fetched_tickers_are_clean
            (fun _ => provider_down) provider_down (pe_request "AAPL, MC.PA ")).
  - reflexivity.
  - reflexivity.
  - vm_compute. right. left. reflexivity.
Defined.

End ProxyMoreWitnesses.
